(** * Object API of the Easegress admin server (pkg/api/object.go)

    A shallow embedding of the object handlers: create, delete, get,
    update and list of configuration objects, the two status handlers,
    and the sort of the listing by name.

    A handler of the source mutates the server [s] and the request
    context [ctx] and returns nothing, or panics.  Here a handler is a
    function from the server and the context to the server after the call
    and an [Outcome]: the context after the call, or the panic value.
    The handlers that write take [s.Lock()] for their whole body, so each
    of them is one atomic transition of the server. *)

From Stdlib Require Import ZArith String Ascii List Sorted Permutation.
From Stdlib Require Import DecimalString DecimalZ.
From stdpp Require Import gmap strings list fin_maps sorting.

Local Open Scope Z_scope.
Local Open Scope string_scope.

(** ** Errors *)

(** A Go [error] is kept as its message, what [err.Error()] returns. *)
Definition error := string.

(** A Go result pair [(v, err)]: [Ok v] stands for [(v, nil)] and [Err e]
    for [(nil, e)]. *)
Inductive Result (A : Type) : Type :=
| Ok (v : A)
| Err (e : error).
Arguments Ok {A} v.
Arguments Err {A} e.

Definition bind {A B : Type} (r : Result A) (k : A -> Result B) : Result B :=
  match r with
  | Ok v => k v
  | Err e => Err e
  end.

Notation "'let?' x ':=' r 'in' k" := (bind r (fun x => k))
  (at level 10, x name, r at level 100, k at level 200, only parsing).

(** ** The formatting verbs the handlers use *)

Module fmt.

(** [fmt.Sprintf("%d", v)] on an integer: its decimal digits, with a
    leading minus sign for a negative one. *)
Definition Sprintf_d (v : Z) : string := NilZero.string_of_int (Z.to_int v).

(** The inverse reading of a decimal string, used to state properties of
    the version header. *)
Definition Sscan_d (s : string) : option Z :=
  option_map Z.of_int (NilZero.int_of_string s).

End fmt.

(** ** Status codes *)

Module iris.
Definition StatusOK : Z := 200.
Definition StatusCreated : Z := 201.
Definition StatusBadRequest : Z := 400.
Definition StatusNotFound : Z := 404.
Definition StatusConflict : Z := 409.
End iris.

(** ** Specs *)

(** Modelled from the spec: [supervisor.Spec] is declared outside
    object.go.  The handlers read three things of it, [Name()], [Kind()]
    and [YAMLConfig()], the canonical serialized form. *)
Record Spec : Type := {
  Name : string;
  Kind : string;
  YAMLConfig : string;
}.

#[global] Instance Spec_eq_dec : EqDecision Spec.
Proof. solve_decision. Defined.

(** ** Collaborators

    What object.go calls and does not define: the spec parser and the
    kind registry of package supervisor, the YAML library, the name of the
    version header, and the rendering of a value by the verb [%#v]. *)

Section Values.

Context {Status YamlMap : Type}.

(** The Go values object.go hands to [yaml.Marshal]. *)
Inductive GoValue : Type :=
| VSpecs (specs : list YamlMap)
| VStatus (status : option Status)
| VStatuses (status : gmap string Status)
| VKinds (kinds : list string).

End Values.
Arguments GoValue : clear implicits.

Class Collaborators : Type := {
  (** the opaque status value of one object *)
  Status : Type;
  (** [map[string]interface{}], the target of [yaml.Unmarshal] *)
  YamlMap : Type;
  NewSpec : string -> Result Spec;
  ObjectKinds : list string;
  yaml_Unmarshal : string -> Result YamlMap;
  yaml_Marshal : GoValue Status YamlMap -> Result string;
  fmt_GoSyntax : GoValue Status YamlMap -> string;
  ConfigVersionKey : string;
}.

(** ** Request contexts *)

(** What a handler writes with [ctx.Write]: raw bytes, or the structured
    error body of [HandleAPIError]. *)
Inductive Payload : Type :=
| Bytes (b : string)
| APIErr (code : Z) (message : string).

Record ResponseWriter : Type := {
  StatusCode : Z;
  Header : gmap string string;
  Body : list Payload;
}.

(** [iris.Context], cut down to what the handlers touch: the result of
    reading the request body, the path parameters, the request path, and
    the response under construction. *)
Record Context : Type := {
  RequestBody : Result string;
  Params : gmap string string;
  Path : string;
  Response : ResponseWriter;
}.

(** The response of a context no handler has touched. *)
Definition emptyResponse : ResponseWriter :=
  {| StatusCode := iris.StatusOK; Header := ∅; Body := [] |}.

(** [ctx.Params().Get(key)]: the empty string for a parameter that the
    route does not have. *)
Definition Params_Get (ctx : Context) (key : string) : string :=
  default "" (Params ctx !! key).

Definition withResponse (ctx : Context) (w : ResponseWriter) : Context :=
  {| RequestBody := RequestBody ctx; Params := Params ctx;
     Path := Path ctx; Response := w |}.

(** [ctx.StatusCode(code)] *)
Definition ctx_StatusCode (code : Z) (ctx : Context) : Context :=
  withResponse ctx
    {| StatusCode := code;
       Header := Header (Response ctx);
       Body := Body (Response ctx) |}.

(** [ctx.Header(key, value)] and
    [ctx.ResponseWriter().Header().Set(key, value)] *)
Definition ctx_Header (key value : string) (ctx : Context) : Context :=
  withResponse ctx
    {| StatusCode := StatusCode (Response ctx);
       Header := <[key := value]> (Header (Response ctx));
       Body := Body (Response ctx) |}.

(** [ctx.Write(b)] *)
Definition ctx_Write (p : Payload) (ctx : Context) : Context :=
  withResponse ctx
    {| StatusCode := StatusCode (Response ctx);
       Header := Header (Response ctx);
       Body := Body (Response ctx) ++ [p] |}.

(** Modelled from the spec: [HandleAPIError] is declared outside
    object.go.  An error response carries the status code and a structured
    error body with the message. *)
Definition HandleAPIError (ctx : Context) (code : Z) (err : error) : Context :=
  ctx_Write (APIErr code err) (ctx_StatusCode code ctx).

(** How a handler ends. *)
Inductive Outcome : Type :=
| Returned (ctx : Context)
| Panicked (v : error).

(** ** The server *)

Section Server.

Context `{Collaborators}.

(** The part of [Server] the object handlers reach: the objects by name,
    the configuration version and the status of the running objects.  The
    status is written by the supervisor, never by a handler. *)
Record Server : Type := {
  objects : gmap string Spec;
  configVersion : Z;
  statusObjects : gmap string Status;
}.

(** Modelled from the spec: [_getObject], the registry's [get(name)].
    [None] stands for the nil pointer of an absent name. *)
Definition _getObject (s : Server) (name : string) : option Spec :=
  objects s !! name.

(** Modelled from the spec: [_putObject], the registry's [put(spec)],
    which inserts or replaces the entry of [spec.Name()]. *)
Definition _putObject (s : Server) (spec : Spec) : Server :=
  {| objects := <[Name spec := spec]> (objects s);
     configVersion := configVersion s;
     statusObjects := statusObjects s |}.

(** Modelled from the spec: [_deleteObject], the registry's
    [delete(name)], which removes the entry if present. *)
Definition _deleteObject (s : Server) (name : string) : Server :=
  {| objects := delete name (objects s);
     configVersion := configVersion s;
     statusObjects := statusObjects s |}.

(** Modelled from the spec: [_listObjects], the registry's [list()].  A Go
    map is walked in no fixed order; this is one order, and the listing
    handler is also stated over every other one ([listObjects_of]). *)
Definition _listObjects (s : Server) : list Spec :=
  (map_to_list (objects s)).*2.

(** Modelled from the spec: [_plusOneVersion], the registry's
    [bumpVersion()], which increments the configuration version and
    returns the new one.  The spec gives the version as an integer with no
    width, so it is an unbounded [Z] here. *)
Definition _plusOneVersion (s : Server) : Server * Z :=
  ({| objects := objects s;
      configVersion := configVersion s + 1;
      statusObjects := statusObjects s |},
   configVersion s + 1).

(** Modelled from the spec: [_getStatusObject], the status view's
    [statusOf(name)]. *)
Definition _getStatusObject (s : Server) (name : string) : option Status :=
  statusObjects s !! name.

(** Modelled from the spec: [_listStatusObjects], the status view's
    [allStatuses()]. *)
Definition _listStatusObjects (s : Server) : gmap string Status :=
  statusObjects s.

(** ** Reading the spec of a request *)

Definition readObjectSpec (ctx : Context) : Result Spec :=
  match RequestBody ctx with
  | Err err => Err ("read body failed: " ++ err)
  | Ok body =>
    let? spec := NewSpec body in
    let name := Params_Get ctx "name" in
    if bool_decide (name <> "") && bool_decide (name <> Name spec)
    then Err "inconsistent name in url and spec "
    else Ok spec
  end.

Definition upgradeConfigVersion (s : Server) (ctx : Context) : Server * Context :=
  let '(s, version) := _plusOneVersion s in
  (s, ctx_Header ConfigVersionKey (fmt.Sprintf_d version) ctx).

(** ** The handlers that write *)

Definition createObject (s : Server) (ctx : Context) : Server * Outcome :=
  match readObjectSpec ctx with
  | Err err => (s, Returned (HandleAPIError ctx iris.StatusBadRequest err))
  | Ok spec =>
    let name := Name spec in
    match _getObject s name with
    | Some existedSpec =>
      (s, Returned (HandleAPIError ctx iris.StatusConflict
                      ("conflict name: " ++ name)))
    | None =>
      let s := _putObject s spec in
      let '(s, ctx) := upgradeConfigVersion s ctx in
      let ctx := ctx_StatusCode iris.StatusCreated ctx in
      let location := Path ctx ++ "/" ++ name in
      (s, Returned (ctx_Header "Location" location ctx))
    end
  end.

Definition deleteObject (s : Server) (ctx : Context) : Server * Outcome :=
  let name := Params_Get ctx "name" in
  match _getObject s name with
  | None => (s, Returned (HandleAPIError ctx iris.StatusNotFound "not found"))
  | Some spec =>
    let s := _deleteObject s name in
    let '(s, ctx) := upgradeConfigVersion s ctx in
    (s, Returned ctx)
  end.

Definition updateObject (s : Server) (ctx : Context) : Server * Outcome :=
  match readObjectSpec ctx with
  | Err err => (s, Returned (HandleAPIError ctx iris.StatusBadRequest err))
  | Ok spec =>
    let name := Name spec in
    match _getObject s name with
    | None => (s, Returned (HandleAPIError ctx iris.StatusNotFound "not found"))
    | Some existedSpec =>
      if bool_decide (Kind existedSpec <> Kind spec)
      then (s, Returned (HandleAPIError ctx iris.StatusBadRequest
                           ("different kinds: " ++ Kind existedSpec
                              ++ ", " ++ Kind spec)))
      else
        let s := _putObject s spec in
        let '(s, ctx) := upgradeConfigVersion s ctx in
        (s, Returned ctx)
    end
  end.

(** ** Sorting the listing

    [specList] is [[]*supervisor.Spec] with the three methods of
    [sort.Interface].  An index out of range makes Go panic; [Less] and
    [Swap] are only ever called by the sort, with indices below [Len], and
    here they answer [false] and leave the list as it is out of range. *)

Definition specList_Less (s : list Spec) (i j : nat) : bool :=
  match s !! i, s !! j with
  | Some a, Some b => String.ltb (Name a) (Name b)
  | _, _ => false
  end.

Definition specList_Len (s : list Spec) : nat := length s.

Definition specList_Swap (s : list Spec) (i j : nat) : list Spec :=
  match s !! i, s !! j with
  | Some a, Some b => <[i := b]> (<[j := a]> s)
  | _, _ => s
  end.

(** The inner loop of the standard library's insertion sort,
    [for j := i; j > 0 && data.Less(j, j-1); j-- { data.Swap(j, j-1) }]. *)
Fixpoint sort_sink (data : list Spec) (j : nat) : list Spec :=
  match j with
  | O => data
  | S j' =>
    if specList_Less data j j'
    then sort_sink (specList_Swap data j j') j'
    else data
  end.

(** [sort.Sort(specs)].  The standard library is not part of the
    repository; its sort is taken as the insertion sort it runs on short
    slices, [for i := 1; i < n; i++ { ... }] around [sort_sink].  Names in
    a listing are pairwise distinct, and then every sort that orders by
    [Less] returns this same list ([sorted_by_name_unique] below).  On a
    slice with a name twice the library's sort, which is not stable, may
    return another arrangement than this one; the properties of the
    handlers below are stated of slices with distinct names only. *)
Definition sort_Sort (data : list Spec) : list Spec :=
  foldl sort_sink data (seq 1 (specList_Len data - 1)).

(** The loop of [specList.Marshal]: [specs] is the slice built so far. *)
Fixpoint specList_Marshal_loop (s : list Spec) (specs : list YamlMap)
  : Result (list YamlMap) :=
  match s with
  | [] => Ok specs
  | spec :: s' =>
    match yaml_Unmarshal (YAMLConfig spec) with
    | Err err =>
      Err ("unmarshal " ++ YAMLConfig spec ++ " to yaml failed: " ++ err)
    | Ok m => specList_Marshal_loop s' (specs ++ [m])
    end
  end.

Definition specList_Marshal (s : list Spec) : Result string :=
  let? specs := specList_Marshal_loop s [] in
  match yaml_Marshal (VSpecs specs) with
  | Err err =>
    Err ("marshal " ++ fmt_GoSyntax (VSpecs specs) ++ " to yaml failed: " ++ err)
  | Ok buff => Ok buff
  end.

(** ** The handlers that read

    They take no lock.  A handler that reads the server once sees one
    state of it. *)

Definition getObject (s : Server) (ctx : Context) : Outcome :=
  let name := Params_Get ctx "name" in
  match _getObject s name with
  | None => Returned (HandleAPIError ctx iris.StatusNotFound "not found")
  | Some spec =>
    let ctx := ctx_Header "Content-Type" "text/vnd.yaml" ctx in
    Returned (ctx_Write (Bytes (YAMLConfig spec)) ctx)
  end.

(** The body of [listObjects] after [s._listObjects()] has returned
    [listed]. *)
Definition listObjects_of (listed : list Spec) (ctx : Context) : Outcome :=
  let specs := sort_Sort listed in
  match specList_Marshal specs with
  | Err err => Panicked err
  | Ok buff =>
    let ctx := ctx_Header "Content-Type" "text/vnd.yaml" ctx in
    Returned (ctx_Write (Bytes buff) ctx)
  end.

Definition listObjects (s : Server) (ctx : Context) : Outcome :=
  listObjects_of (_listObjects s) ctx.

(** [getStatusObject] reads the server twice with no lock, first the
    objects and then the status, and a writer may run in between:
    [s] is the server at [s._getObject(name)] and [s'] the server at
    [s._getStatusObject(name)]. *)
Definition getStatusObject_at (s s' : Server) (ctx : Context) : Outcome :=
  let name := Params_Get ctx "name" in
  match _getObject s name with
  | None => Returned (HandleAPIError ctx iris.StatusNotFound "not found")
  | Some spec =>
    let status := _getStatusObject s' name in
    match yaml_Marshal (VStatus status) with
    | Err err =>
      Panicked ("marshal " ++ fmt_GoSyntax (VStatus status)
                  ++ " to yaml failed: " ++ err)
    | Ok buff =>
      let ctx := ctx_Header "Content-Type" "text/vnd.yaml" ctx in
      Returned (ctx_Write (Bytes buff) ctx)
    end
  end.

(** The handler with no writer in between. *)
Definition getStatusObject (s : Server) (ctx : Context) : Outcome :=
  getStatusObject_at s s ctx.

Definition listStatusObjects (s : Server) (ctx : Context) : Outcome :=
  let status := _listStatusObjects s in
  match yaml_Marshal (VStatuses status) with
  | Err err =>
    Panicked ("marshal " ++ fmt_GoSyntax (VStatuses status)
                ++ " to yaml failed: " ++ err)
  | Ok buff =>
    let ctx := ctx_Header "Content-Type" "text/vnd.yaml" ctx in
    Returned (ctx_Write (Bytes buff) ctx)
  end.

Definition listObjectKinds (ctx : Context) : Outcome :=
  let kinds := ObjectKinds in
  match yaml_Marshal (VKinds kinds) with
  | Err err =>
    Panicked ("marshal " ++ fmt_GoSyntax (VKinds kinds)
                ++ " to yaml failed: " ++ err)
  | Ok buff => Returned (ctx_Write (Bytes buff) ctx)
  end.

(** ** The routes of [setupObjectAPIs] *)

Definition ObjectPrefix : string := "/objects".
Definition ObjectKindsPrefix : string := "/object-kinds".
Definition StatusObjectPrefix : string := "/status/objects".

(** A request that matches one of the eight entries: the method, the
    path with the value of [{name:string}] where the entry has it, and the
    result of reading the body where the handler reads it. *)
Inductive Request : Type :=
| GET_object_kinds
| POST_objects (body : Result string)
| GET_objects
| GET_object (name : string)
| PUT_object (name : string) (body : Result string)
| DELETE_object (name : string)
| GET_status_objects
| GET_status_object (name : string).

Definition newContext (body : Result string) (params : gmap string string)
    (path : string) : Context :=
  {| RequestBody := body; Params := params; Path := path;
     Response := emptyResponse |}.

Definition requestContext (r : Request) : Context :=
  match r with
  | GET_object_kinds => newContext (Ok "") ∅ ObjectKindsPrefix
  | POST_objects body => newContext body ∅ ObjectPrefix
  | GET_objects => newContext (Ok "") ∅ ObjectPrefix
  | GET_object name =>
    newContext (Ok "") {["name" := name]} (ObjectPrefix ++ "/" ++ name)
  | PUT_object name body =>
    newContext body {["name" := name]} (ObjectPrefix ++ "/" ++ name)
  | DELETE_object name =>
    newContext (Ok "") {["name" := name]} (ObjectPrefix ++ "/" ++ name)
  | GET_status_objects => newContext (Ok "") ∅ StatusObjectPrefix
  | GET_status_object name =>
    newContext (Ok "") {["name" := name]} (StatusObjectPrefix ++ "/" ++ name)
  end.

(** One request served to its end, with no other request in between. *)
Definition serve (s : Server) (r : Request) : Server * Outcome :=
  let ctx := requestContext r in
  match r with
  | GET_object_kinds => (s, listObjectKinds ctx)
  | POST_objects _ => createObject s ctx
  | GET_objects => (s, listObjects s ctx)
  | GET_object _ => (s, getObject s ctx)
  | PUT_object _ _ => updateObject s ctx
  | DELETE_object _ => deleteObject s ctx
  | GET_status_objects => (s, listStatusObjects s ctx)
  | GET_status_object _ => (s, getStatusObject s ctx)
  end.

(** A sequence of requests served one after the other: the server at the
    end and the outcomes in order. *)
Fixpoint serveAll (s : Server) (rs : list Request) : Server * list Outcome :=
  match rs with
  | [] => (s, [])
  | r :: rs' =>
    let '(s1, o) := serve s r in
    let '(s2, os) := serveAll s1 rs' in
    (s2, o :: os)
  end.

(** ** Reading an outcome *)

(** The status code of the response, if the handler returned. *)
Definition statusOf (o : Outcome) : option Z :=
  match o with
  | Returned ctx => Some (StatusCode (Response ctx))
  | Panicked _ => None
  end.

(** The value of a response header, if the handler returned and set it. *)
Definition headerOf (key : string) (o : Outcome) : option string :=
  match o with
  | Returned ctx => Header (Response ctx) !! key
  | Panicked _ => None
  end.

(** The body of the response, if the handler returned. *)
Definition bodyOf (o : Outcome) : option (list Payload) :=
  match o with
  | Returned ctx => Some (Body (Response ctx))
  | Panicked _ => None
  end.

(** The version a response carries in its version header. *)
Definition versionOf (o : Outcome) : option Z :=
  headerOf ConfigVersionKey o ≫= fmt.Sscan_d.

(** A request is accepted when the handler returned with a status below
    400, the first of the client errors. *)
Definition accepted (o : Outcome) : bool :=
  match statusOf o with
  | Some code => bool_decide (code < iris.StatusBadRequest)
  | None => false
  end.

(** The versions the accepted requests of a run returned, in order. *)
Definition returnedVersions (os : list Outcome) : list Z :=
  omap versionOf (filter (fun o => accepted o = true) os).

(** Modelled from the spec: [supervisor.NewSpec] is declared outside
    object.go.  The serialized form a spec carries is canonical: parsing
    it gives the spec back. *)
Definition canonical : Prop :=
  forall body spec, NewSpec body = Ok spec -> NewSpec (YAMLConfig spec) = Ok spec.

(** The requests whose handler writes the server. *)
Definition mutation (r : Request) : bool :=
  match r with
  | POST_objects _ | PUT_object _ _ | DELETE_object _ => true
  | _ => false
  end.

(** How many requests of a run were mutations that were accepted. *)
Definition acceptedMutations (rs : list Request) (os : list Outcome) : nat :=
  length (filter (fun ro => mutation ro.1 && accepted ro.2 = true) (zip rs os)).

(** Every stored spec is stored under its own name; the handlers keep it
    so ([createObject], [updateObject] put a spec at [spec.Name()]). *)
Definition keyed (s : Server) : Prop :=
  forall name spec, objects s !! name = Some spec -> Name spec = name.

(** The server before any request. *)
Definition emptyServer (status : gmap string Status) : Server :=
  {| objects := ∅; configVersion := 0; statusObjects := status |}.

End Server.

(** ** A concrete set of collaborators

    A small parser and serializer, enough to run the handlers on concrete
    requests.  A body is a sequence of lines [key: value]; a spec needs a
    non-empty [name] and a [kind], and its canonical form is its body. *)

Module Demo.

Definition newline : ascii := ascii_of_nat 10.
Definition tab : ascii := ascii_of_nat 9.
Definition nl : string := String newline "".

Fixpoint lines (s : string) : list string :=
  match s with
  | EmptyString => [""]
  | String c s' =>
    if Ascii.eqb c newline then "" :: lines s'
    else match lines s' with
         | l :: ls => String c l :: ls
         | [] => [String c ""]
         end
  end.

Fixpoint strip_prefix (p s : string) : option string :=
  match p, s with
  | EmptyString, _ => Some s
  | String a p', String b s' =>
    if Ascii.eqb a b then strip_prefix p' s' else None
  | String _ _, EmptyString => None
  end.

(** The value of the first line [key: value] of [ls]. *)
Fixpoint field (key : string) (ls : list string) : option string :=
  match ls with
  | [] => None
  | l :: ls' =>
    match strip_prefix (key ++ ": ") l with
    | Some v => Some v
    | None => field key ls'
    end
  end.

Definition parse (body : string) : Result Spec :=
  match field "name" (lines body), field "kind" (lines body) with
  | Some name, Some kind =>
    if bool_decide (name = "") then Err "empty name"
    else Ok {| Name := name; Kind := kind; YAMLConfig := body |}
  | None, _ => Err "name is required"
  | _, None => Err "kind is required"
  end.

(** The status of a running object; [Unrepresentable] stands for a value
    the serializer has no form for. *)
Inductive status : Type :=
| Running (info : string)
| Unrepresentable.

Fixpoint has_tab (s : string) : bool :=
  match s with
  | EmptyString => false
  | String c s' => Ascii.eqb c tab || has_tab s'
  end.

(** A document with a tab in it is refused. *)
Definition unmarshal (doc : string) : Result (list string) :=
  if has_tab doc then Err "found character that cannot start any token"
  else Ok (lines doc).

Definition marshal_status (st : status) : Result string :=
  match st with
  | Running info => Ok ("state: " ++ info ++ nl)
  | Unrepresentable => Err "cannot marshal type"
  end.

Fixpoint marshal_statuses (l : list (string * status)) : Result string :=
  match l with
  | [] => Ok ""
  | (name, st) :: l' =>
    let? b := marshal_status st in
    let? bs := marshal_statuses l' in
    Ok (name ++ ":" ++ nl ++ "  " ++ b ++ bs)
  end.

Definition marshal (v : GoValue status (list string)) : Result string :=
  match v with
  | VSpecs specs =>
    Ok (String.concat "" (map (fun m => "- " ++ String.concat (nl ++ "  ") m ++ nl) specs))
  | VStatus None => Ok ("{}" ++ nl)
  | VStatus (Some st) => marshal_status st
  | VStatuses m => marshal_statuses (map_to_list m)
  | VKinds kinds =>
    Ok (String.concat "" (map (fun k => "- " ++ k ++ nl) kinds))
  end.

Definition go_syntax (v : GoValue status (list string)) : string :=
  match v with
  | VSpecs _ => "[]map[string]interface {}{...}"
  | VStatus _ => "map[string]string{...}"
  | VStatuses _ => "map[string]map[string]string{...}"
  | VKinds _ => "[]string{...}"
  end.

#[export] Instance collaborators : Collaborators := {|
  Status := status;
  YamlMap := list string;
  NewSpec := parse;
  ObjectKinds := ["HTTPPipeline"; "HTTPServer"];
  yaml_Unmarshal := unmarshal;
  yaml_Marshal := marshal;
  fmt_GoSyntax := go_syntax;
  ConfigVersionKey := "X-Config-Version";
|}.

(** The body of a spec with the given name and kind and one more line. *)
Definition body (name kind rest : string) : string :=
  "name: " ++ name ++ nl ++ "kind: " ++ kind ++ nl ++ rest.

(** Concrete servers and specs for the runs below. *)

Definition svc1 : Spec :=
  {| Name := "svc1"; Kind := "Pipeline";
     YAMLConfig := body "svc1" "Pipeline" "port: 80" |}.

Definition named (name : string) : Spec :=
  {| Name := name; Kind := "Pipeline"; YAMLConfig := body name "Pipeline" "" |}.

Definition empty : Server := emptyServer ∅.

(** One object, running. *)
Definition running : Server :=
  {| objects := {["svc1" := svc1]};
     configVersion := 1;
     statusObjects := {["svc1" := Running "ok"]} |}.

(** One object, with a status that cannot be serialized. *)
Definition broken : Server :=
  {| objects := {["svc1" := svc1]};
     configVersion := 1;
     statusObjects := {["svc1" := Unrepresentable]} |}.

(** Three objects put in the order c, a, b. *)
Definition three : Server :=
  foldl _putObject empty [named "c"; named "a"; named "b"].

(** The scenario of the specification: create, get, update, an update
    with another kind, delete, get. *)
Definition scenario : list Request :=
  [POST_objects (Ok (body "svc1" "Pipeline" "port: 80"));
   GET_object "svc1";
   PUT_object "svc1" (Ok (body "svc1" "Pipeline" "port: 8080"));
   PUT_object "svc1" (Ok (body "svc1" "Other" "port: 8080"));
   DELETE_object "svc1";
   GET_object "svc1"].

End Demo.

(** ** The table of [setupObjectAPIs]

    The eight entries the server registers, in the order of the source.
    A handler is a method of the server; here it takes the server and the
    context.  A handler that reads returns the server as it was. *)

Section Routes.

Context `{Collaborators}.

Local Open Scope string_scope.

Record APIEntry : Type := {
  APIPath : string;
  APIMethod : string;
  APIHandler : Server -> Context -> Server * Outcome;
}.

Definition objAPIs : list APIEntry :=
  [ {| APIPath := ObjectKindsPrefix; APIMethod := "GET";
       APIHandler := fun s ctx => (s, listObjectKinds ctx) |};
    {| APIPath := ObjectPrefix; APIMethod := "POST";
       APIHandler := createObject |};
    {| APIPath := ObjectPrefix; APIMethod := "GET";
       APIHandler := fun s ctx => (s, listObjects s ctx) |};
    {| APIPath := ObjectPrefix ++ "/{name:string}"; APIMethod := "GET";
       APIHandler := fun s ctx => (s, getObject s ctx) |};
    {| APIPath := ObjectPrefix ++ "/{name:string}"; APIMethod := "PUT";
       APIHandler := updateObject |};
    {| APIPath := ObjectPrefix ++ "/{name:string}"; APIMethod := "DELETE";
       APIHandler := deleteObject |};
    {| APIPath := StatusObjectPrefix; APIMethod := "GET";
       APIHandler := fun s ctx => (s, listStatusObjects s ctx) |};
    {| APIPath := StatusObjectPrefix ++ "/{name:string}"; APIMethod := "GET";
       APIHandler := fun s ctx => (s, getStatusObject s ctx) |} ].

(** The method and the path pattern a request matches. *)
Definition routeOf (r : Request) : string * string :=
  match r with
  | GET_object_kinds => ("GET", ObjectKindsPrefix)
  | POST_objects _ => ("POST", ObjectPrefix)
  | GET_objects => ("GET", ObjectPrefix)
  | GET_object _ => ("GET", ObjectPrefix ++ "/{name:string}")
  | PUT_object _ _ => ("PUT", ObjectPrefix ++ "/{name:string}")
  | DELETE_object _ => ("DELETE", ObjectPrefix ++ "/{name:string}")
  | GET_status_objects => ("GET", StatusObjectPrefix)
  | GET_status_object _ => ("GET", StatusObjectPrefix ++ "/{name:string}")
  end.

(** The entries registered for a method and a path pattern. *)
Definition entriesFor (route : string * string) : list APIEntry :=
  filter (fun e => (APIMethod e, APIPath e) = route) objAPIs.

End Routes.

(** * Properties *)

(** ** The order of names

    Go compares strings byte by byte, as [String.compare] does. *)

Definition name_lt (a b : Spec) : Prop := String.ltb (Name a) (Name b) = true.
Definition name_le (a b : Spec) : Prop := String.ltb (Name b) (Name a) = false.

#[global] Instance name_lt_dec (a b : Spec) : Decision (name_lt a b).
Proof. unfold name_lt. apply _. Defined.

Lemma ascii_compare_refl (a : ascii) : Ascii.compare a a = Eq.
Proof. apply N.compare_refl. Qed.

Lemma ascii_compare_lt_trans (a b c : ascii) :
  Ascii.compare a b = Lt -> Ascii.compare b c = Lt -> Ascii.compare a c = Lt.
Proof.
  unfold Ascii.compare. rewrite !N.compare_lt_iff. apply N.lt_trans.
Qed.

Lemma string_compare_refl (a : string) : String.compare a a = Eq.
Proof.
  induction a as [|c a IH]; simpl; [reflexivity|].
  now rewrite ascii_compare_refl.
Qed.

Lemma string_compare_lt_trans (a b c : string) :
  String.compare a b = Lt -> String.compare b c = Lt -> String.compare a c = Lt.
Proof.
  revert b c. induction a as [|x a IH]; intros [|y b] [|z c]; simpl;
    try congruence.
  destruct (Ascii.compare x y) eqn:Hxy; try discriminate.
  - apply Ascii.compare_eq_iff in Hxy as ->.
    destruct (Ascii.compare y z); try congruence. apply IH.
  - destruct (Ascii.compare y z) eqn:Hyz; try discriminate.
    + apply Ascii.compare_eq_iff in Hyz as <-. now rewrite Hxy.
    + now rewrite (ascii_compare_lt_trans _ _ _ Hxy Hyz).
Qed.

Lemma string_ltb_lt (a b : string) :
  String.ltb a b = true <-> String.compare a b = Lt.
Proof. unfold String.ltb. destruct (String.compare a b); split; congruence. Qed.

Lemma string_ltb_irrefl (a : string) : String.ltb a a = false.
Proof. unfold String.ltb. now rewrite string_compare_refl. Qed.

Lemma string_ltb_trans (a b c : string) :
  String.ltb a b = true -> String.ltb b c = true -> String.ltb a c = true.
Proof. rewrite !string_ltb_lt. apply string_compare_lt_trans. Qed.

(** [b] is not below [a] exactly when [a] is below or equal to [b]. *)
Lemma string_ltb_false (a b : string) :
  String.ltb b a = false <-> String.ltb a b = true \/ a = b.
Proof.
  unfold String.ltb. rewrite (String.compare_antisym b a).
  destruct (String.compare a b) eqn:E; simpl; split; try tauto; try congruence.
  - intros _. right. now apply String.compare_eq_iff.
  - intros [Hlt | ->]; [congruence|].
    rewrite string_compare_refl in E. congruence.
Qed.

Lemma name_lt_trans : Transitive name_lt.
Proof. intros a b c. apply string_ltb_trans. Qed.

Lemma name_le_trans : Transitive name_le.
Proof.
  intros a b c. unfold name_le. rewrite !string_ltb_false.
  intros [Hab|Hab] [Hbc|Hbc]; try (rewrite Hab in *; tauto);
    try (rewrite <- Hbc; tauto).
  left. eapply string_ltb_trans; eassumption.
Qed.

Lemma name_lt_le (a b : Spec) : name_lt a b -> name_le a b.
Proof. unfold name_lt, name_le. rewrite string_ltb_false. tauto. Qed.

Lemma name_lt_irrefl (a : Spec) : ~ name_lt a a.
Proof. unfold name_lt. now rewrite string_ltb_irrefl. Qed.

Lemma name_le_lt (a b : Spec) : name_le a b -> Name a <> Name b -> name_lt a b.
Proof. unfold name_lt, name_le. rewrite string_ltb_false. tauto. Qed.

(** ** The version header reads back *)

Lemma Sscan_Sprintf (v : Z) : fmt.Sscan_d (fmt.Sprintf_d v) = Some v.
Proof.
  unfold fmt.Sscan_d, fmt.Sprintf_d.
  rewrite NilZero.isi.
  - simpl. now rewrite DecimalZ.of_to.
  - destruct v; simpl; try discriminate.
    intros E. injection E as E.
    now apply DecimalPos.Unsigned.to_uint_nonnil in E.
  - destruct v; simpl; try discriminate.
    intros E. injection E as E.
    now apply DecimalPos.Unsigned.to_uint_nonnil in E.
Qed.

(** ** The sort *)

Local Open Scope list_scope.

Lemma lookup_two_l (pre : list Spec) (p x : Spec) (post : list Spec) :
  (pre ++ p :: x :: post) !! length pre = Some p.
Proof. induction pre as [|a pre IH]; simpl; [reflexivity|exact IH]. Qed.

Lemma lookup_two_r (pre : list Spec) (p x : Spec) (post : list Spec) :
  (pre ++ p :: x :: post) !! S (length pre) = Some x.
Proof. induction pre as [|a pre IH]; simpl; [reflexivity|exact IH]. Qed.

Lemma specList_Less_adjacent (pre : list Spec) (p x : Spec) (post : list Spec) :
  specList_Less (pre ++ p :: x :: post) (S (length pre)) (length pre)
  = String.ltb (Name x) (Name p).
Proof.
  unfold specList_Less. now rewrite lookup_two_r, lookup_two_l.
Qed.

Lemma specList_Swap_adjacent (pre : list Spec) (p x : Spec) (post : list Spec) :
  specList_Swap (pre ++ p :: x :: post) (S (length pre)) (length pre)
  = pre ++ x :: p :: post.
Proof.
  unfold specList_Swap. rewrite lookup_two_r, lookup_two_l.
  induction pre as [|a pre IH]; simpl; [reflexivity|].
  f_equal. exact IH.
Qed.

(** [Swap] permutes, whatever the indices. *)
Lemma specList_Swap_perm (s : list Spec) (i j : nat) :
  specList_Swap s i j ≡ₚ s.
Proof.
  unfold specList_Swap.
  destruct (s !! i) as [a|] eqn:Hi; [|reflexivity].
  destruct (s !! j) as [b|] eqn:Hj; [|reflexivity].
  destruct (decide (i = j)) as [->|Hne].
  - rewrite list_insert_insert_eq. rewrite Hi in Hj. injection Hj as ->.
    now rewrite list_insert_id.
  - apply Permutation_inj. split.
    + now rewrite !length_insert.
    + exists (fun k => if decide (k = i) then j else if decide (k = j) then i else k).
      split.
      * intros k1 k2. repeat case_decide; congruence.
      * intros k. destruct (decide (k = i)) as [->|Hki].
        { rewrite list_lookup_insert_eq, Hj; [reflexivity|].
          rewrite length_insert. now apply lookup_lt_Some in Hi. }
        rewrite list_lookup_insert_ne by congruence.
        destruct (decide (k = j)) as [->|Hkj].
        { rewrite list_lookup_insert_eq, Hi; [reflexivity|].
          now apply lookup_lt_Some in Hj. }
        now rewrite list_lookup_insert_ne by congruence.
Qed.

Lemma sort_sink_perm (data : list Spec) (j : nat) : sort_sink data j ≡ₚ data.
Proof.
  revert data. induction j as [|j IH]; intros data; simpl; [reflexivity|].
  destruct (specList_Less data (S j) j); [|reflexivity].
  now rewrite IH, specList_Swap_perm.
Qed.

(** One pass of the inner loop: with the [length pre] first elements in
    order, the element after them is put in its place among them and the
    rest is left alone. *)
Lemma sort_sink_sorted (pre : list Spec) (x : Spec) (post : list Spec) :
  StronglySorted name_le pre ->
  exists l, sort_sink (pre ++ x :: post) (length pre) = l ++ post
            /\ l ≡ₚ pre ++ [x] /\ StronglySorted name_le l.
Proof.
  revert x post. induction pre as [|p pre IH] using rev_ind; intros x post Hpre.
  - exists [x]. simpl. repeat split; [reflexivity|].
    repeat constructor.
  - apply StronglySorted_app in Hpre as (Hlt & Hpre & _).
    rewrite length_app, Nat.add_1_r. simpl sort_sink.
    rewrite <- (app_assoc pre [p]). simpl app.
    rewrite specList_Less_adjacent.
    destruct (String.ltb (Name x) (Name p)) eqn:Hxp.
    + rewrite specList_Swap_adjacent.
      destruct (IH x (p :: post) Hpre) as (l & -> & Hperm & Hl).
      exists (l ++ [p]). rewrite <- app_assoc. split; [reflexivity|]. split.
      * rewrite Hperm, <- !app_assoc. simpl.
        apply Permutation_app_head, perm_swap.
      * apply StronglySorted_app_2; [|exact Hl|repeat constructor].
        intros a b Ha Hb. apply list_elem_of_singleton in Hb as ->.
        rewrite Hperm in Ha. apply elem_of_app in Ha as [Ha|Ha].
        { apply Hlt; [exact Ha|]. now apply list_elem_of_singleton. }
        apply list_elem_of_singleton in Ha as ->. now apply name_lt_le.
    + exists (pre ++ [p; x]). rewrite <- app_assoc. simpl.
      split; [reflexivity|]. split.
      * now rewrite <- app_assoc.
      * apply StronglySorted_app_2; [|exact Hpre|].
        { intros a b Ha Hb.
          assert (name_le a p) as Hap
            by (apply Hlt; [exact Ha|now apply list_elem_of_singleton]).
          apply elem_of_cons in Hb as [->|Hb]; [exact Hap|].
          apply list_elem_of_singleton in Hb as ->.
          eapply name_le_trans; [exact Hap|exact Hxp]. }
        repeat constructor. exact Hxp.
Qed.

(** The outer loop from index [length pre] on. *)
Lemma sort_loop_sorted (post pre : list Spec) :
  StronglySorted name_le pre ->
  StronglySorted name_le
    (foldl sort_sink (pre ++ post) (seq (length pre) (length post))).
Proof.
  revert pre. induction post as [|x post IH]; intros pre Hpre; simpl.
  - now rewrite app_nil_r.
  - destruct (sort_sink_sorted pre x post Hpre) as (l & -> & Hperm & Hl).
    assert (S (length pre) = length l) as ->.
    { rewrite Hperm, length_app, Nat.add_1_r. reflexivity. }
    now apply IH.
Qed.

Lemma sort_loop_perm (idx : list nat) (data : list Spec) :
  foldl sort_sink data idx ≡ₚ data.
Proof.
  revert data. induction idx as [|i idx IH]; intros data; simpl; [reflexivity|].
  now rewrite IH, sort_sink_perm.
Qed.

Lemma sort_Sort_perm (data : list Spec) : sort_Sort data ≡ₚ data.
Proof. apply sort_loop_perm. Qed.

Lemma sort_Sort_sorted (data : list Spec) :
  StronglySorted name_le (sort_Sort data).
Proof.
  unfold sort_Sort, specList_Len. destruct data as [|x data]; simpl.
  - constructor.
  - rewrite Nat.sub_0_r.
    apply (sort_loop_sorted data [x]). repeat constructor.
Qed.

(** In a list in order with no name twice, the names go strictly up. *)
Lemma sorted_le_NoDup_lt (l : list Spec) :
  StronglySorted name_le l -> NoDup (Name <$> l) -> StronglySorted name_lt l.
Proof.
  induction 1 as [|a l Hl IH Ha]; intros Hnd; [constructor|].
  rewrite fmap_cons in Hnd. apply NoDup_cons in Hnd as [Hnotin Hnd].
  constructor; [now apply IH|].
  apply Forall_forall. intros b Hb.
  apply name_le_lt.
  - rewrite Forall_forall in Ha. now apply Ha.
  - intros E. apply Hnotin. rewrite E. now apply list_elem_of_fmap_2.
Qed.

(** Two lists with the same elements and the names strictly up are the
    same list: the result of a sort by name does not depend on how the
    sort works. *)
Lemma sorted_by_name_unique (l1 l2 : list Spec) :
  StronglySorted name_lt l1 -> StronglySorted name_lt l2 -> l1 ≡ₚ l2 ->
  l1 = l2.
Proof.
  apply StronglySorted_unique_strong.
  intros a b _ _ Hab Hba. exfalso.
  apply (name_lt_irrefl a). now apply (name_lt_trans a b a).
Qed.

Section Listing.

Context `{Collaborators}.

Lemma _listObjects_names (s : Server) :
  keyed s -> Name <$> _listObjects s = (map_to_list (objects s)).*1.
Proof.
  intros Hk. unfold _listObjects. rewrite <- list_fmap_compose.
  apply list_fmap_ext. intros i [name spec] Hin. simpl.
  apply list_elem_of_lookup_2, elem_of_map_to_list in Hin. now apply Hk.
Qed.

Lemma _listObjects_NoDup (s : Server) :
  keyed s -> NoDup (Name <$> _listObjects s).
Proof.
  intros Hk. rewrite _listObjects_names by exact Hk.
  apply NoDup_fst_map_to_list.
Qed.

Lemma _listObjects_elem (s : Server) (spec : Spec) :
  keyed s -> spec ∈ _listObjects s <-> objects s !! Name spec = Some spec.
Proof.
  intros Hk. unfold _listObjects. rewrite list_elem_of_fmap. split.
  - intros ([name sp] & -> & Hin). simpl.
    apply elem_of_map_to_list in Hin. now rewrite (Hk _ _ Hin).
  - intros Hl. exists (Name spec, spec). split; [reflexivity|].
    now apply elem_of_map_to_list.
Qed.

Lemma keyed_empty (status : gmap string Status) : keyed (emptyServer status).
Proof. intros name spec. simpl. now rewrite lookup_empty. Qed.

Lemma keyed_put (s : Server) (spec : Spec) : keyed s -> keyed (_putObject s spec).
Proof.
  intros Hk name sp. simpl. rewrite lookup_insert.
  case_decide as E; [|apply Hk]. intros Hsp. injection Hsp as <-. exact E.
Qed.

Lemma keyed_delete (s : Server) (name : string) :
  keyed s -> keyed (_deleteObject s name).
Proof.
  intros Hk n sp. simpl. rewrite lookup_delete.
  case_decide; [discriminate|apply Hk].
Qed.

End Listing.

(** ** The handlers that write *)

Section Writers.

Context `{Collaborators}.

Local Open Scope string_scope.

(** C2: create.  With the body parsed to [spec]: if the name is taken the
    request fails with Conflict and the server is as before; if it is
    free the spec is stored under its name, the version goes up by one,
    the response is Created with the location of the new object and the
    new version in the version header, and a second create of the same
    name then fails with Conflict and changes nothing. *)
Theorem createObject_conflict_or_created
    (s : Server) (ctx : Context) (spec : Spec) :
  readObjectSpec ctx = Ok spec ->
  match objects s !! Name spec with
  | Some existed =>
    createObject s ctx
    = (s, Returned (HandleAPIError ctx iris.StatusConflict
                      ("conflict name: " ++ Name spec)))
  | None =>
    exists s' ctx',
      createObject s ctx = (s', Returned ctx')
      /\ objects s' = <[Name spec := spec]> (objects s)
      /\ configVersion s' = configVersion s + 1
      /\ statusObjects s' = statusObjects s
      /\ StatusCode (Response ctx') = iris.StatusCreated
      /\ Body (Response ctx') = Body (Response ctx)
      /\ Header (Response ctx') !! "Location"
         = Some (Path ctx ++ "/" ++ Name spec)
      /\ (ConfigVersionKey <> "Location" ->
          Header (Response ctx') !! ConfigVersionKey
          = Some (fmt.Sprintf_d (configVersion s + 1)))
      /\ (forall ctx2 spec2,
            readObjectSpec ctx2 = Ok spec2 -> Name spec2 = Name spec ->
            createObject s' ctx2
            = (s', Returned (HandleAPIError ctx2 iris.StatusConflict
                               ("conflict name: " ++ Name spec)))
            /\ objects s' !! Name spec = Some spec)
  end.
Proof.
  intros Hread.
  destruct (objects s !! Name spec) as [existed|] eqn:Hget.
  { unfold createObject, _getObject. now rewrite Hread, Hget. }
  eexists _, _. split.
  { unfold createObject, _getObject. rewrite Hread, Hget. reflexivity. }
  simpl. repeat split.
  - apply lookup_insert_eq.
  - intros Hkey. rewrite lookup_insert_ne by congruence.
    apply lookup_insert_eq.
  - unfold createObject.
    match goal with Hread2 : readObjectSpec _ = Ok _ |- _ => rewrite Hread2 end.
    unfold _getObject. simpl.
    match goal with Hname : Name _ = Name spec |- _ => rewrite Hname end.
    now rewrite lookup_insert_eq.
  - apply lookup_insert_eq.
Qed.

(** C3: update.  With the body parsed to [spec]: if the name is absent
    the request fails with NotFound, whatever the kind; if the stored
    spec has another kind the request fails as a bad request that names
    the two kinds; in both cases the server is as before.  Otherwise the
    stored spec is replaced, the version goes up by one and the new version
    is in the version header. *)
Theorem updateObject_notfound_kind_or_replaced
    (s : Server) (ctx : Context) (spec : Spec) :
  readObjectSpec ctx = Ok spec ->
  match objects s !! Name spec with
  | None =>
    updateObject s ctx
    = (s, Returned (HandleAPIError ctx iris.StatusNotFound "not found"))
  | Some existed =>
    if bool_decide (Kind existed = Kind spec)
    then exists s' ctx',
      updateObject s ctx = (s', Returned ctx')
      /\ objects s' = <[Name spec := spec]> (objects s)
      /\ configVersion s' = configVersion s + 1
      /\ statusObjects s' = statusObjects s
      /\ StatusCode (Response ctx') = StatusCode (Response ctx)
      /\ Body (Response ctx') = Body (Response ctx)
      /\ Header (Response ctx') !! ConfigVersionKey
         = Some (fmt.Sprintf_d (configVersion s + 1))
    else
      updateObject s ctx
      = (s, Returned (HandleAPIError ctx iris.StatusBadRequest
                        ("different kinds: " ++ Kind existed
                           ++ ", " ++ Kind spec)))
  end.
Proof.
  intros Hread. unfold updateObject. rewrite Hread. unfold _getObject.
  destruct (objects s !! Name spec) as [existed|] eqn:Hget; [|reflexivity].
  destruct (decide (Kind existed = Kind spec)) as [Hk|Hk].
  - rewrite (bool_decide_eq_true_2 _ Hk).
    rewrite bool_decide_eq_false_2 by (intros Hne; now apply Hne).
    eexists _, _.
    split; [reflexivity|]. simpl. repeat split. apply lookup_insert_eq.
  - rewrite (bool_decide_eq_false_2 _ Hk).
    now rewrite (bool_decide_eq_true_2 _ Hk).
Qed.

(** C4: delete.  If the name has an entry, the entry is removed, the
    version goes up by one and is in the version header, and a get of the
    name on the server after the delete answers NotFound.  If the name has
    no entry the request fails with NotFound and the server, its objects
    and its version, is as before. *)
Theorem deleteObject_removed_or_notfound (s : Server) (ctx : Context) :
  match objects s !! Params_Get ctx "name" with
  | Some spec =>
    exists s' ctx',
      deleteObject s ctx = (s', Returned ctx')
      /\ objects s' = delete (Params_Get ctx "name") (objects s)
      /\ configVersion s' = configVersion s + 1
      /\ statusObjects s' = statusObjects s
      /\ StatusCode (Response ctx') = StatusCode (Response ctx)
      /\ Header (Response ctx') !! ConfigVersionKey
         = Some (fmt.Sprintf_d (configVersion s + 1))
      /\ (forall ctx2,
            Params_Get ctx2 "name" = Params_Get ctx "name" ->
            getObject s' ctx2
            = Returned (HandleAPIError ctx2 iris.StatusNotFound "not found"))
  | None =>
    deleteObject s ctx
    = (s, Returned (HandleAPIError ctx iris.StatusNotFound "not found"))
  end.
Proof.
  unfold deleteObject, _getObject.
  destruct (objects s !! Params_Get ctx "name") as [spec|] eqn:Hget;
    [|reflexivity].
  eexists _, _.
  split; [reflexivity|]. simpl. repeat split.
  - apply lookup_insert_eq.
  - intros ctx2 Hname. unfold getObject, _getObject. simpl.
    now rewrite Hname, lookup_delete_eq.
Qed.

(** C5: a name in the path that is not empty and is not the name of the
    parsed spec makes create and update fail as a bad request, and the
    server, its objects and its version, is as before. *)
Theorem name_mismatch_is_bad_request
    (s : Server) (ctx : Context) (body : string) (spec : Spec) :
  RequestBody ctx = Ok body ->
  NewSpec body = Ok spec ->
  Params_Get ctx "name" <> "" ->
  Params_Get ctx "name" <> Name spec ->
  createObject s ctx
  = (s, Returned (HandleAPIError ctx iris.StatusBadRequest
                    "inconsistent name in url and spec "))
  /\ updateObject s ctx
     = (s, Returned (HandleAPIError ctx iris.StatusBadRequest
                       "inconsistent name in url and spec ")).
Proof.
  intros Hbody Hspec Hne Hdiff.
  assert (readObjectSpec ctx = Err "inconsistent name in url and spec ")
    as Hread.
  { unfold readObjectSpec. rewrite Hbody, Hspec. simpl.
    now rewrite !bool_decide_eq_true_2. }
  unfold createObject, updateObject. now rewrite Hread.
Qed.

(** C10: update does not look for a change.  An update with the very spec
    that is stored succeeds: the objects are as before, the version goes
    up by one and the new version is in the version header. *)
Theorem updateObject_same_spec_bumps
    (s : Server) (ctx : Context) (spec : Spec) :
  readObjectSpec ctx = Ok spec ->
  objects s !! Name spec = Some spec ->
  exists s' ctx',
    updateObject s ctx = (s', Returned ctx')
    /\ objects s' = objects s
    /\ configVersion s' = configVersion s + 1
    /\ StatusCode (Response ctx') = StatusCode (Response ctx)
    /\ Header (Response ctx') !! ConfigVersionKey
       = Some (fmt.Sprintf_d (configVersion s + 1)).
Proof.
  intros Hread Hget. unfold updateObject. rewrite Hread.
  unfold _getObject. rewrite Hget.
  rewrite bool_decide_eq_false_2 by (intros Hne; now apply Hne).
  eexists _, _.
  split; [reflexivity|]. simpl. repeat split.
  - now apply insert_id.
  - apply lookup_insert_eq.
Qed.

End Writers.

(** ** The configuration version over a run *)

Section Versions.

Context `{Collaborators}.

Local Open Scope string_scope.

Lemma consecutive_sorted (c : Z) (n a : nat) :
  StronglySorted Z.lt ((fun k => c + Z.of_nat k) <$> seq a n).
Proof.
  revert a. induction n as [|n IH]; intros a; simpl; constructor; [apply IH|].
  apply Forall_forall. intros v Hv.
  apply list_elem_of_fmap in Hv as (k & -> & Hk).
  apply elem_of_seq in Hk. lia.
Qed.

Lemma consecutive_cons (c : Z) (n : nat) :
  (c + 1) :: ((fun k => c + 1 + Z.of_nat k) <$> seq 1 n)
  = (fun k => c + Z.of_nat k) <$> seq 1 (S n).
Proof.
  simpl. f_equal. rewrite <- (fmap_S_seq 1 n), <- list_fmap_compose.
  apply list_fmap_ext. intros i k _. simpl. lia.
Qed.

Lemma returnedVersions_cons_Some (o : Outcome) (os : list Outcome) (v : Z) :
  accepted o = true -> versionOf o = Some v ->
  returnedVersions (o :: os) = v :: returnedVersions os.
Proof.
  intros Ha Hv. unfold returnedVersions.
  rewrite filter_cons_True by exact Ha. simpl. now rewrite Hv.
Qed.

Lemma returnedVersions_cons_None (o : Outcome) (os : list Outcome) :
  versionOf o = None -> returnedVersions (o :: os) = returnedVersions os.
Proof.
  intros Hv. unfold returnedVersions.
  destruct (decide (accepted o = true)) as [Ha|Ha].
  - rewrite filter_cons_True by exact Ha. simpl. now rewrite Hv.
  - now rewrite filter_cons_False by exact Ha.
Qed.

(** An error response on a fresh context: not accepted, no version. *)
Lemma error_response (ctx : Context) (code : Z) (err : error) :
  Response ctx = emptyResponse -> iris.StatusBadRequest <= code ->
  accepted (Returned (HandleAPIError ctx code err)) = false
  /\ versionOf (Returned (HandleAPIError ctx code err)) = None.
Proof.
  intros Hfresh Hcode. unfold accepted, versionOf. simpl. split.
  - apply bool_decide_eq_false_2. lia.
  - rewrite Hfresh. simpl. now rewrite lookup_empty.
Qed.

(** A response that sets the content type only carries no version. *)
Lemma content_type_no_version (ctx : Context) (p : Payload) :
  Response ctx = emptyResponse ->
  versionOf (Returned (ctx_Write p
               (ctx_Header "Content-Type" "text/vnd.yaml" ctx))) = None.
Proof.
  intros Hfresh. unfold versionOf. simpl. rewrite Hfresh. simpl.
  rewrite lookup_insert. case_decide; [reflexivity|].
  now rewrite lookup_empty.
Qed.

Lemma requestContext_fresh (r : Request) :
  Response (requestContext r) = emptyResponse.
Proof. now destruct r. Qed.

(** A branch that ends in [HandleAPIError] on the fresh context of the
    request. *)
Ltac failed_request Hfresh :=
  right; cbn [fst snd];
  match goal with
  | |- context [HandleAPIError ?c ?code ?e] =>
    destruct (error_response c code e Hfresh) as [-> ->];
    [unfold iris.StatusBadRequest, iris.StatusConflict, iris.StatusNotFound;
     lia|]
  end;
  now repeat split.

(** One request: an accepted mutation moves the version up by one and
    returns it; any other request leaves the server as it is and returns
    no version. *)
Lemma serve_version (s : Server) (r : Request) :
  ConfigVersionKey <> "Location" ->
  (mutation r = true
   /\ accepted (serve s r).2 = true
   /\ configVersion (serve s r).1 = configVersion s + 1
   /\ versionOf (serve s r).2 = Some (configVersion s + 1))
  \/ (mutation r && accepted (serve s r).2 = false
      /\ (serve s r).1 = s
      /\ versionOf (serve s r).2 = None).
Proof.
  intros Hkey.
  pose proof (requestContext_fresh r) as Hfresh.
  destruct r as [|body| |name|name body|name| |name]; unfold serve.
  - right. repeat split. unfold listObjectKinds.
    destruct (yaml_Marshal _); [|reflexivity].
    unfold versionOf. simpl. now rewrite lookup_empty.
  - unfold createObject.
    destruct (readObjectSpec _) as [spec|err]; [|failed_request Hfresh].
    destruct (_getObject s (Name spec)); [failed_request Hfresh|].
    left. repeat split. unfold versionOf. simpl.
    rewrite lookup_insert_ne by congruence.
    rewrite lookup_insert_eq. simpl. apply Sscan_Sprintf.
  - right. repeat split. unfold listObjects, listObjects_of.
    destruct (specList_Marshal _); [|reflexivity].
    now apply content_type_no_version.
  - right. repeat split. unfold getObject.
    destruct (_getObject _ _).
    + now apply content_type_no_version.
    + now apply error_response.
  - unfold updateObject.
    destruct (readObjectSpec _) as [spec|err]; [|failed_request Hfresh].
    destruct (_getObject s (Name spec)) as [existed|];
      [|failed_request Hfresh].
    case_bool_decide; [failed_request Hfresh|].
    left. repeat split. unfold versionOf. simpl.
    rewrite lookup_insert_eq. simpl. apply Sscan_Sprintf.
  - unfold deleteObject.
    destruct (_getObject s _) as [existed|]; [|failed_request Hfresh].
    left. repeat split. unfold versionOf. simpl.
    rewrite lookup_insert_eq. simpl. apply Sscan_Sprintf.
  - right. repeat split. unfold listStatusObjects.
    destruct (yaml_Marshal _); [|reflexivity].
    now apply content_type_no_version.
  - right. repeat split. unfold getStatusObject, getStatusObject_at.
    destruct (_getObject _ _).
    + destruct (yaml_Marshal _); [|reflexivity].
      now apply content_type_no_version.
    + now apply error_response.
Qed.

(** C1: over any run of requests from any server, the versions returned
    by the accepted requests are the consecutive integers after the version
    at the start, so they go strictly up; there is one of them for each
    accepted mutation; the version at the end is the version at the start
    plus their number, so a request that fails moves nothing; and request
    by request, an accepted mutation returns the version it has moved up
    by one while every other request leaves the server as it is and
    returns no version. *)
Theorem configVersion_strictly_increasing (s : Server) (rs : list Request) :
  ConfigVersionKey <> "Location" ->
  let versions := returnedVersions (serveAll s rs).2 in
  versions
  = (fun k => configVersion s + Z.of_nat k) <$> seq 1 (length versions)
  /\ StronglySorted Z.lt versions
  /\ length versions = acceptedMutations rs (serveAll s rs).2
  /\ configVersion (serveAll s rs).1
     = configVersion s + Z.of_nat (length versions)
  /\ (forall s0 r,
        (mutation r = true
         /\ accepted (serve s0 r).2 = true
         /\ configVersion (serve s0 r).1 = configVersion s0 + 1
         /\ versionOf (serve s0 r).2 = Some (configVersion s0 + 1))
        \/ (mutation r && accepted (serve s0 r).2 = false
            /\ (serve s0 r).1 = s0
            /\ versionOf (serve s0 r).2 = None)).
Proof.
  intros Hkey versions.
  assert (versions
          = (fun k => configVersion s + Z.of_nat k) <$> seq 1 (length versions)
          /\ length versions = acceptedMutations rs (serveAll s rs).2
          /\ configVersion (serveAll s rs).1
             = configVersion s + Z.of_nat (length versions)) as (Hv & Hn & Hc).
  { subst versions. revert s.
    induction rs as [|r rs IH]; intros s.
    - simpl. repeat split. lia.
    - simpl. pose proof (serve_version s r Hkey) as Hstep.
      destruct (serve s r) as [s1 o] eqn:Hserve. specialize (IH s1).
      destruct (serveAll s1 rs) as [s2 os] eqn:Hall.
      cbn [fst snd] in *. unfold acceptedMutations in *. cbn [zip zip_with].
      destruct Hstep as [(Hm & Ha & Hs1 & Hver)|(Hm & Hs1 & Hver)].
      + rewrite (returnedVersions_cons_Some _ _ _ Ha Hver).
        rewrite filter_cons_True by (cbn [fst snd]; now rewrite Hm, Ha).
        destruct IH as (IHv & IHn & IHc). rewrite Hs1 in *.
        cbn [length]. repeat split.
        * rewrite <- consecutive_cons. now rewrite <- IHv.
        * now rewrite IHn.
        * rewrite IHc. lia.
      + rewrite (returnedVersions_cons_None _ _ Hver).
        rewrite filter_cons_False
          by (cbn [fst snd]; rewrite Hm; discriminate).
        subst s1. exact IH. }
  repeat split; try assumption.
  - rewrite Hv. apply consecutive_sorted.
  - intros s0 r. now apply serve_version.
Qed.

End Versions.

(** ** The listing *)

Lemma sorted_lt_NoDup (l : list Spec) :
  StronglySorted name_lt l -> NoDup (Name <$> l).
Proof.
  induction 1 as [|a l Hl IH Ha]; [constructor|].
  rewrite fmap_cons. apply NoDup_cons. split; [|exact IH].
  intros Hin. apply list_elem_of_fmap in Hin as (b & Hab & Hb).
  rewrite Forall_forall in Ha. apply (name_lt_irrefl b).
  specialize (Ha b Hb). unfold name_lt in *. now rewrite Hab in Ha.
Qed.

(** The sort returns the one list that has the elements of its input with
    the names strictly up, when there is one. *)
Lemma sort_Sort_unique (l l' : list Spec) :
  l ≡ₚ l' -> StronglySorted name_lt l' -> sort_Sort l = l'.
Proof.
  intros Hperm Hl'. apply sorted_by_name_unique; [|exact Hl'|].
  - apply sorted_le_NoDup_lt; [apply sort_Sort_sorted|].
    rewrite sort_Sort_perm, Hperm. now apply sorted_lt_NoDup.
  - now rewrite sort_Sort_perm.
Qed.

Section Readers.

Context `{Collaborators}.

Local Open Scope string_scope.

(** The loop of [Marshal] keeps the order of the specs. *)
Lemma specList_Marshal_loop_order (l : list Spec) (acc ms : list YamlMap) :
  specList_Marshal_loop l acc = Ok ms ->
  exists ms', ms = (acc ++ ms')%list
    /\ Forall2 (fun spec m => yaml_Unmarshal (YAMLConfig spec) = Ok m) l ms'.
Proof.
  revert acc. induction l as [|spec l IH]; intros acc; simpl.
  - intros Hok. injection Hok as <-. exists []. split; [|constructor].
    now rewrite app_nil_r.
  - destruct (yaml_Unmarshal (YAMLConfig spec)) as [m|e] eqn:Hm;
      [|discriminate].
    intros Hok. destruct (IH _ Hok) as (ms' & -> & Hall).
    exists (m :: ms'). split; [now rewrite <- app_assoc|].
    now constructor.
Qed.

Lemma specList_Marshal_loop_Ok (l : list Spec) (acc ms : list YamlMap) :
  Forall2 (fun spec m => yaml_Unmarshal (YAMLConfig spec) = Ok m) l ms ->
  specList_Marshal_loop l acc = Ok (acc ++ ms)%list.
Proof.
  intros Hall. revert acc.
  induction Hall as [|spec m l ms Hm _ IH]; intros acc; simpl.
  - now rewrite app_nil_r.
  - rewrite Hm, IH. now rewrite <- app_assoc.
Qed.

(** C6: list.  Whatever the order [listed] in which the stored specs come
    out of the registry, the handler sorts them into the one order with
    the names strictly up, the same for every [listed]; the sorted list has
    exactly the stored specs; the response is the serialization of their
    forms in that order; with specs named c, a and b put in this order
    into an empty registry, the sorted listing is a, b, c; and when the
    form of every spec unmarshals and the results in that order marshal to
    [buff], the handler does return, with the status untouched, the YAML
    content type and [buff] written to the body. *)
Theorem listObjects_sorted_by_name
    (s : Server) (listed : list Spec) (ctx : Context) :
  keyed s ->
  listed ≡ₚ _listObjects s ->
  StronglySorted name_lt (sort_Sort listed)
  /\ sort_Sort listed ≡ₚ _listObjects s
  /\ (forall spec,
        spec ∈ sort_Sort listed <-> objects s !! Name spec = Some spec)
  /\ sort_Sort listed = sort_Sort (_listObjects s)
  /\ listObjects_of listed ctx = listObjects s ctx
  /\ (forall ctx',
        listObjects_of listed ctx = Returned ctx' ->
        exists ms buff,
          Forall2 (fun spec m => yaml_Unmarshal (YAMLConfig spec) = Ok m)
                  (sort_Sort listed) ms
          /\ yaml_Marshal (VSpecs ms) = Ok buff
          /\ Body (Response ctx') = (Body (Response ctx) ++ [Bytes buff])%list
          /\ StatusCode (Response ctx') = StatusCode (Response ctx))
  /\ (forall sa sb sc status,
        Name sa = "a" -> Name sb = "b" -> Name sc = "c" ->
        sort_Sort (_listObjects
                     (foldl _putObject (emptyServer status) [sc; sa; sb]))
        = [sa; sb; sc])
  /\ (forall ms buff,
        Forall2 (fun spec m => yaml_Unmarshal (YAMLConfig spec) = Ok m)
                (sort_Sort listed) ms ->
        yaml_Marshal (VSpecs ms) = Ok buff ->
        listObjects_of listed ctx
        = Returned (ctx_Write (Bytes buff)
                      (ctx_Header "Content-Type" "text/vnd.yaml" ctx))
        /\ statusOf (listObjects_of listed ctx)
           = Some (StatusCode (Response ctx))
        /\ bodyOf (listObjects_of listed ctx)
           = Some (Body (Response ctx) ++ [Bytes buff])%list
        /\ headerOf "Content-Type" (listObjects_of listed ctx)
           = Some "text/vnd.yaml").
Proof.
  intros Hk Hperm.
  assert (StronglySorted name_lt (sort_Sort listed)) as Hsorted.
  { apply sorted_le_NoDup_lt; [apply sort_Sort_sorted|].
    rewrite sort_Sort_perm, Hperm. now apply _listObjects_NoDup. }
  assert (sort_Sort listed = sort_Sort (_listObjects s)) as Heq.
  { symmetry. apply sort_Sort_unique; [|exact Hsorted].
    now rewrite sort_Sort_perm, Hperm. }
  split; [exact Hsorted|]. split; [now rewrite sort_Sort_perm|].
  split; [|split; [exact Heq|split; [|split; [|split]]]].
  - intros spec. rewrite sort_Sort_perm, Hperm. now apply _listObjects_elem.
  - unfold listObjects, listObjects_of. now rewrite Heq.
  - intros ctx'. unfold listObjects_of, specList_Marshal.
    destruct (specList_Marshal_loop (sort_Sort listed) []) as [ms|e] eqn:Hloop;
      simpl; [|discriminate].
    destruct (yaml_Marshal (VSpecs ms)) as [buff|e] eqn:Hbuff; [|discriminate].
    intros Hret. injection Hret as <-.
    apply specList_Marshal_loop_order in Hloop as (ms' & -> & Hall).
    exists ms', buff. now repeat split.
  - intros sa sb sc status Ha Hb Hc. apply sort_Sort_unique.
    + unfold _listObjects. simpl. rewrite Ha, Hb, Hc.
      rewrite !map_to_list_insert, map_to_list_empty; simpl.
      * apply perm_swap.
      * apply lookup_empty.
      * now rewrite lookup_insert_ne, lookup_empty.
      * now rewrite !lookup_insert_ne, lookup_empty.
    + unfold name_lt.
      repeat (constructor; [|repeat constructor]); rewrite ?Ha, ?Hb, ?Hc;
        try reflexivity.
      constructor.
  - intros ms buff Hall Hbuff.
    assert (listObjects_of listed ctx
            = Returned (ctx_Write (Bytes buff)
                          (ctx_Header "Content-Type" "text/vnd.yaml" ctx)))
      as ->.
    { unfold listObjects_of, specList_Marshal.
      rewrite (specList_Marshal_loop_Ok _ [] ms Hall). simpl.
      now rewrite Hbuff. }
    simpl. repeat split. apply lookup_insert_eq.
Qed.

End Readers.

Section Lookups.

Context `{Collaborators}.

Local Open Scope string_scope.

Lemma Params_Get_name (r : Request) (name : string) :
  Params (requestContext r) = {["name" := name]} ->
  Params_Get (requestContext r) "name" = name.
Proof. intros E. unfold Params_Get. now rewrite E, lookup_singleton_eq. Qed.

(** C7: get.  The answer is NotFound exactly when the name has no entry.
    When it has one, the response is the canonical form of the stored
    spec, with status 200.  And after a create that was given [body],
    parsed to [spec] whose name was free, a get of that name returns a form
    that parses back to a spec with the name, the kind and the form of
    [spec], the form of a spec being canonical. *)
Theorem getObject_found_or_notfound (s : Server) (name : string) :
  let o := (serve s (GET_object name)).2 in
  (statusOf o = Some iris.StatusNotFound <-> objects s !! name = None)
  /\ (forall spec,
        objects s !! name = Some spec ->
        statusOf o = Some iris.StatusOK
        /\ bodyOf o = Some [Bytes (YAMLConfig spec)]
        /\ headerOf "Content-Type" o = Some "text/vnd.yaml")
  /\ (forall body spec,
        canonical ->
        NewSpec body = Ok spec ->
        Name spec = name ->
        objects s !! name = None ->
        let s' := (serve s (POST_objects (Ok body))).1 in
        exists out spec',
          bodyOf (serve s' (GET_object name)).2 = Some [Bytes out]
          /\ NewSpec out = Ok spec'
          /\ Name spec' = Name spec
          /\ Kind spec' = Kind spec
          /\ YAMLConfig spec' = YAMLConfig spec).
Proof.
  intros o. subst o.
  unfold serve, getObject, _getObject. cbn [snd].
  rewrite (Params_Get_name (GET_object name) name eq_refl).
  split; [|split].
  - destruct (objects s !! name) as [spec|]; simpl; split;
      try discriminate; reflexivity.
  - intros spec ->. simpl. repeat split; try apply lookup_insert_eq.
  - intros body spec Hcanon Hspec Hname Hfree.
    unfold createObject, readObjectSpec, _getObject. simpl.
    rewrite Hspec. simpl.
    change (Params_Get (requestContext (POST_objects (Ok body))) "name")
      with "".
    rewrite bool_decide_eq_false_2 by (intros Hne; now apply Hne). simpl.
    rewrite Hname, Hfree. simpl.
    rewrite lookup_insert_eq. simpl.
    exists (YAMLConfig spec), spec.
    repeat split; try assumption. now apply (Hcanon body).
Qed.

(** C8: status of an object.  The answer is NotFound exactly when the
    name has no entry in the server [s] that the first read sees.  When it
    has one, the handler answers from the status that the second read
    finds in [s'], whatever the objects of [s'] are.  So when the object is
    deleted between the two reads, the answer is the one the handler gives
    with no delete in between, and not NotFound, though the name is gone
    and a request after the delete gets NotFound.  What the handler
    answers is the status itself: when the status that the second read
    finds marshals to [buff], the response is 200 with [buff] as its body;
    after a delete in between this is the status the view had before
    it. *)
Theorem getStatusObject_no_second_check (s s' : Server) (name : string) :
  let ctx := requestContext (GET_status_object name) in
  (statusOf (getStatusObject_at s s' ctx) = Some iris.StatusNotFound
   <-> objects s !! name = None)
  /\ (forall s'',
        is_Some (objects s !! name) ->
        statusObjects s'' !! name = statusObjects s' !! name ->
        getStatusObject_at s s'' ctx = getStatusObject_at s s' ctx)
  /\ (is_Some (objects s !! name) ->
      let deleted := (serve s (DELETE_object name)).1 in
      objects deleted !! name = None
      /\ getStatusObject_at s deleted ctx = getStatusObject s ctx
      /\ statusOf (getStatusObject_at s deleted ctx)
         <> Some iris.StatusNotFound
      /\ statusOf (getStatusObject deleted ctx) = Some iris.StatusNotFound)
  /\ (forall buff,
        is_Some (objects s !! name) ->
        yaml_Marshal (VStatus (statusObjects s' !! name)) = Ok buff ->
        getStatusObject_at s s' ctx
        = Returned (ctx_Write (Bytes buff)
                      (ctx_Header "Content-Type" "text/vnd.yaml" ctx))
        /\ statusOf (getStatusObject_at s s' ctx) = Some iris.StatusOK
        /\ bodyOf (getStatusObject_at s s' ctx) = Some [Bytes buff])
  /\ (forall buff,
        is_Some (objects s !! name) ->
        yaml_Marshal (VStatus (statusObjects s !! name)) = Ok buff ->
        let deleted := (serve s (DELETE_object name)).1 in
        statusOf (getStatusObject_at s deleted ctx) = Some iris.StatusOK
        /\ bodyOf (getStatusObject_at s deleted ctx) = Some [Bytes buff]).
Proof.
  intros ctx. subst ctx.
  unfold getStatusObject, getStatusObject_at, _getObject, _getStatusObject.
  rewrite (Params_Get_name (GET_status_object name) name eq_refl).
  split; [|split; [|split; [|split]]].
  - destruct (objects s !! name) as [spec|]; simpl; [|now split].
    destruct (yaml_Marshal _); simpl; split; discriminate.
  - intros s'' [spec ->] ->. reflexivity.
  - intros [spec Hspec]. unfold serve, deleteObject, _getObject.
    rewrite (Params_Get_name (DELETE_object name) name eq_refl).
    rewrite Hspec. simpl. rewrite lookup_delete_eq.
    repeat split. destruct (yaml_Marshal _); simpl; discriminate.
  - intros buff [spec ->] ->. now repeat split.
  - intros buff [spec Hspec] Hbuff. unfold serve, deleteObject, _getObject.
    rewrite (Params_Get_name (DELETE_object name) name eq_refl).
    rewrite Hspec. simpl. rewrite Hbuff. now repeat split.
Qed.

(** C9: a handler panics only when a serialization fails: the listing of
    the objects when the forms of the stored specs cannot be turned into the
    response, the two status handlers and the listing of the kinds when
    the value cannot be marshalled.  Then it does panic, with no error
    response.  Every other end of a request is a return, and a panic
    leaves the server as it is. *)
Theorem panic_only_on_serialization_failure (s : Server) (r : Request) :
  (forall v,
     (serve s r).2 = Panicked v ->
     (serve s r).1 = s
     /\ ((r = GET_objects
          /\ specList_Marshal (sort_Sort (_listObjects s)) = Err v)
         \/ (exists name e,
               r = GET_status_object name
               /\ is_Some (objects s !! name)
               /\ yaml_Marshal (VStatus (statusObjects s !! name)) = Err e)
         \/ (exists e,
               r = GET_status_objects
               /\ yaml_Marshal (VStatuses (statusObjects s)) = Err e)
         \/ (exists e,
               r = GET_object_kinds
               /\ yaml_Marshal (VKinds ObjectKinds) = Err e)))
  /\ (forall e,
        specList_Marshal (sort_Sort (_listObjects s)) = Err e ->
        (serve s GET_objects).2 = Panicked e)
  /\ (forall name e,
        is_Some (objects s !! name) ->
        yaml_Marshal (VStatus (statusObjects s !! name)) = Err e ->
        exists v, (serve s (GET_status_object name)).2 = Panicked v)
  /\ (forall e,
        yaml_Marshal (VStatuses (statusObjects s)) = Err e ->
        exists v, (serve s GET_status_objects).2 = Panicked v)
  /\ (mutation r = true -> exists ctx', (serve s r).2 = Returned ctx')
  /\ (forall name, exists ctx', (serve s (GET_object name)).2 = Returned ctx').
Proof.
  split; [|split; [|split; [|split; [|split]]]].
  - intros v.
    destruct r as [|body| |name|name body|name| |name]; unfold serve;
      cbn [fst snd].
    + unfold listObjectKinds.
      destruct (yaml_Marshal (VKinds ObjectKinds)) as [buff|e] eqn:E;
        [discriminate|].
      intros _. split; [reflexivity|]. right. right. right. now exists e.
    + unfold createObject. destruct (readObjectSpec _); [|discriminate].
      destruct (_getObject _ _); discriminate.
    + unfold listObjects, listObjects_of.
      destruct (specList_Marshal _) as [buff|e] eqn:E; [discriminate|].
      intros Hp. injection Hp as <-. split; [reflexivity|]. now left.
    + unfold getObject. destruct (_getObject _ _); discriminate.
    + unfold updateObject. destruct (readObjectSpec _); [|discriminate].
      destruct (_getObject _ _); [|discriminate].
      case_bool_decide; discriminate.
    + unfold deleteObject. destruct (_getObject _ _); discriminate.
    + unfold listStatusObjects, _listStatusObjects.
      destruct (yaml_Marshal (VStatuses _)) as [buff|e] eqn:E;
        [discriminate|].
      intros _. split; [reflexivity|]. right. right. left. now exists e.
    + unfold getStatusObject, getStatusObject_at, _getObject, _getStatusObject.
      rewrite (Params_Get_name (GET_status_object name) name eq_refl).
      destruct (objects s !! name) as [spec|] eqn:Hspec; [|discriminate].
      destruct (yaml_Marshal (VStatus _)) as [buff|e] eqn:E; [discriminate|].
      intros _. split; [reflexivity|]. right. left. exists name, e.
      rewrite Hspec. now repeat split.
  - intros e He. unfold serve, listObjects, listObjects_of. cbn [snd].
    now rewrite He.
  - intros name e [spec Hspec] He. unfold serve. cbn [snd].
    unfold getStatusObject, getStatusObject_at, _getObject, _getStatusObject.
    rewrite (Params_Get_name (GET_status_object name) name eq_refl).
    rewrite Hspec, He. now eexists.
  - intros e He. unfold serve, listStatusObjects, _listStatusObjects.
    cbn [snd]. rewrite He. now eexists.
  - destruct r as [|body| |name|name body|name| |name]; try discriminate;
      intros _; unfold serve.
    + unfold createObject. destruct (readObjectSpec _); [|now eexists].
      destruct (_getObject _ _); now eexists.
    + unfold updateObject. destruct (readObjectSpec _); [|now eexists].
      destruct (_getObject _ _); [|now eexists].
      case_bool_decide; now eexists.
    + unfold deleteObject. destruct (_getObject _ _); now eexists.
  - intros name. unfold serve, getObject. cbn [snd].
    destruct (_getObject _ _); now eexists.
Qed.

End Lookups.

(** ** The stored specs stay under their own names *)

Section Keyed.

Context `{Collaborators}.

Lemma keyed_serve (s : Server) (r : Request) : keyed s -> keyed (serve s r).1.
Proof.
  intros Hk.
  destruct r as [|body| |name|name body|name| |name]; unfold serve;
    try exact Hk.
  - unfold createObject. destruct (readObjectSpec _) as [spec|]; [|exact Hk].
    destruct (_getObject _ _); [exact Hk|]. now apply (keyed_put s spec).
  - unfold updateObject. destruct (readObjectSpec _) as [spec|]; [|exact Hk].
    destruct (_getObject _ _); [|exact Hk].
    case_bool_decide; [exact Hk|]. now apply (keyed_put s spec).
  - unfold deleteObject. destruct (_getObject _ _); [|exact Hk].
    now apply (keyed_delete s).
Qed.

Lemma keyed_serveAll (rs : list Request) (s : Server) :
  keyed s -> keyed (serveAll s rs).1.
Proof.
  revert s. induction rs as [|r rs IH]; intros s Hk; [exact Hk|].
  simpl. pose proof (keyed_serve s r Hk) as Hk1.
  destruct (serve s r) as [s1 o]. specialize (IH s1 Hk1).
  now destruct (serveAll s1 rs).
Qed.

End Keyed.

(** ** Concrete runs *)

Section Runs.

Import Demo.

Local Open Scope string_scope.

Lemma Demo_canonical : canonical.
Proof.
  intros body spec. simpl. unfold parse.
  destruct (field "name" (lines body)) as [name|] eqn:Hn; [|discriminate].
  destruct (field "kind" (lines body)) as [kind|] eqn:Hk; [|discriminate].
  case_bool_decide as Hne; [discriminate|].
  intros Hok. injection Hok as <-. simpl.
  rewrite Hn, Hk. now rewrite bool_decide_eq_false_2.
Qed.

Lemma Demo_key : ConfigVersionKey <> "Location".
Proof. discriminate. Qed.

(** The scenario of the specification, status by status and version by
    version. *)
Example scenario_run :
  statusOf <$> (serveAll empty scenario).2
  = [Some 201; Some 200; Some 200; Some 400; Some 200; Some 404]
  /\ versionOf <$> (serveAll empty scenario).2
     = [Some 1; None; Some 2; None; Some 3; None].
Proof. split; vm_compute; reflexivity. Qed.

Lemma configVersion_strictly_increasing_witness :
  ConfigVersionKey <> "Location"
  /\ returnedVersions (serveAll empty scenario).2 = [1; 2; 3]
  /\ StronglySorted Z.lt (returnedVersions (serveAll empty scenario).2)
  /\ configVersion (serveAll empty scenario).1 = 3.
Proof.
  pose proof (configVersion_strictly_increasing empty scenario Demo_key)
    as (Hv & Hs & _ & Hc & _).
  split; [exact Demo_key|]. split; [|split; [exact Hs|]].
  - rewrite Hv. vm_compute. reflexivity.
  - rewrite Hc. vm_compute. reflexivity.
Defined.

Lemma createObject_conflict_or_created_witness :
  readObjectSpec (requestContext (POST_objects (Ok (YAMLConfig svc1))))
  = Ok svc1
  /\ (exists s' ctx',
        createObject empty (requestContext (POST_objects (Ok (YAMLConfig svc1))))
        = (s', Returned ctx')
        /\ objects s' !! "svc1" = Some svc1
        /\ configVersion s' = 1
        /\ StatusCode (Response ctx') = 201
        /\ Header (Response ctx') !! "Location" = Some "/objects/svc1")
  /\ (createObject running
        (requestContext (POST_objects (Ok (YAMLConfig svc1)))))
     = (running,
        Returned (HandleAPIError
                    (requestContext (POST_objects (Ok (YAMLConfig svc1))))
                    409 "conflict name: svc1")).
Proof.
  assert (readObjectSpec (requestContext (POST_objects (Ok (YAMLConfig svc1))))
          = Ok svc1) as Hread by (vm_compute; reflexivity).
  split; [exact Hread|]. split.
  - destruct (createObject_conflict_or_created empty _ svc1 Hread)
      as (s' & ctx' & Hc & Ho & Hv & _ & Hst & _ & Hl & _).
    exists s', ctx'. split; [exact Hc|]. rewrite Ho. repeat split.
    + exact Hv.
    + exact Hst.
    + exact Hl.
  - exact (createObject_conflict_or_created running _ svc1 Hread).
Defined.

Lemma updateObject_notfound_kind_or_replaced_witness :
  readObjectSpec
    (requestContext (PUT_object "svc1" (Ok (body "svc1" "Other" ""))))
  = Ok {| Name := "svc1"; Kind := "Other"; YAMLConfig := body "svc1" "Other" "" |}
  /\ updateObject running
       (requestContext (PUT_object "svc1" (Ok (body "svc1" "Other" ""))))
     = (running,
        Returned (HandleAPIError
                    (requestContext
                       (PUT_object "svc1" (Ok (body "svc1" "Other" ""))))
                    400 "different kinds: Pipeline, Other"))
  /\ updateObject empty
       (requestContext (PUT_object "svc1" (Ok (body "svc1" "Other" ""))))
     = (empty,
        Returned (HandleAPIError
                    (requestContext
                       (PUT_object "svc1" (Ok (body "svc1" "Other" ""))))
                    404 "not found")).
Proof.
  assert (readObjectSpec
            (requestContext (PUT_object "svc1" (Ok (body "svc1" "Other" ""))))
          = Ok {| Name := "svc1"; Kind := "Other";
                  YAMLConfig := body "svc1" "Other" "" |}) as Hread
    by (vm_compute; reflexivity).
  split; [exact Hread|]. split.
  - exact (updateObject_notfound_kind_or_replaced running _ _ Hread).
  - exact (updateObject_notfound_kind_or_replaced empty _ _ Hread).
Defined.

Lemma deleteObject_removed_or_notfound_witness :
  (exists s' ctx',
     deleteObject running (requestContext (DELETE_object "svc1"))
     = (s', Returned ctx')
     /\ objects s' = delete "svc1" (objects running)
     /\ configVersion s' = 2
     /\ getObject s' (requestContext (GET_object "svc1"))
        = Returned (HandleAPIError (requestContext (GET_object "svc1"))
                      404 "not found"))
  /\ deleteObject empty (requestContext (DELETE_object "svc1"))
     = (empty,
        Returned (HandleAPIError (requestContext (DELETE_object "svc1"))
                    404 "not found")).
Proof.
  split.
  - destruct (deleteObject_removed_or_notfound running
                (requestContext (DELETE_object "svc1")))
      as (s' & ctx' & Hd & Ho & Hv & _ & _ & _ & Hget).
    exists s', ctx'. repeat split; try assumption.
    now apply Hget.
  - exact (deleteObject_removed_or_notfound empty
             (requestContext (DELETE_object "svc1"))).
Defined.

Lemma name_mismatch_is_bad_request_witness :
  Params_Get (requestContext (PUT_object "svc2" (Ok (YAMLConfig svc1)))) "name"
  <> Name svc1
  /\ updateObject running
       (requestContext (PUT_object "svc2" (Ok (YAMLConfig svc1))))
     = (running,
        Returned (HandleAPIError
                    (requestContext (PUT_object "svc2" (Ok (YAMLConfig svc1))))
                    400 "inconsistent name in url and spec ")).
Proof.
  assert (Params_Get
            (requestContext (PUT_object "svc2" (Ok (YAMLConfig svc1)))) "name"
          <> Name svc1) as Hdiff by (vm_compute; discriminate).
  split; [exact Hdiff|].
  refine (proj2 (name_mismatch_is_bad_request running
                   (requestContext (PUT_object "svc2" (Ok (YAMLConfig svc1))))
                   (YAMLConfig svc1) svc1 eq_refl _ _ Hdiff)).
  - vm_compute; reflexivity.
  - vm_compute; discriminate.
Defined.

Lemma updateObject_same_spec_bumps_witness :
  readObjectSpec (requestContext (PUT_object "svc1" (Ok (YAMLConfig svc1))))
  = Ok svc1
  /\ objects running !! Name svc1 = Some svc1
  /\ exists s' ctx',
       updateObject running
         (requestContext (PUT_object "svc1" (Ok (YAMLConfig svc1))))
       = (s', Returned ctx')
       /\ objects s' = objects running
       /\ configVersion s' = 2
       /\ Header (Response ctx') !! "X-Config-Version" = Some "2".
Proof.
  assert (readObjectSpec
            (requestContext (PUT_object "svc1" (Ok (YAMLConfig svc1))))
          = Ok svc1) as Hread by (vm_compute; reflexivity).
  assert (objects running !! Name svc1 = Some svc1) as Hget
    by (vm_compute; reflexivity).
  split; [exact Hread|]. split; [exact Hget|].
  destruct (updateObject_same_spec_bumps running _ svc1 Hread Hget)
    as (s' & ctx' & Hu & Ho & Hv & _ & Hh).
  exists s', ctx'. repeat split; assumption.
Defined.

Lemma keyed_three : keyed three.
Proof. unfold three. simpl. repeat apply keyed_put. apply keyed_empty. Qed.

Lemma listObjects_sorted_by_name_witness :
  keyed three
  /\ reverse (_listObjects three) ≡ₚ _listObjects three
  /\ sort_Sort (reverse (_listObjects three))
     = [named "a"; named "b"; named "c"]
  /\ StronglySorted name_lt (sort_Sort (reverse (_listObjects three)))
  /\ bodyOf (listObjects_of (reverse (_listObjects three))
               (requestContext GET_objects))
     = Some [Bytes ("- name: a" ++ nl ++ "  kind: Pipeline" ++ nl ++ "  " ++ nl
                    ++ "- name: b" ++ nl ++ "  kind: Pipeline" ++ nl ++ "  " ++ nl
                    ++ "- name: c" ++ nl ++ "  kind: Pipeline" ++ nl ++ "  " ++ nl)].
Proof.
  assert (reverse (_listObjects three) ≡ₚ _listObjects three) as Hperm
    by apply reverse_Permutation.
  assert (sort_Sort (reverse (_listObjects three))
          = [named "a"; named "b"; named "c"]) as Hsort
    by (vm_compute; reflexivity).
  destruct (listObjects_sorted_by_name three _
              (requestContext GET_objects) keyed_three Hperm)
    as (Hs & _ & _ & _ & _ & _ & _ & Hresp).
  split; [exact keyed_three|]. split; [exact Hperm|].
  split; [exact Hsort|]. split; [exact Hs|].
  refine (proj1 (proj2 (proj2
            (Hresp [lines (YAMLConfig (named "a"));
                    lines (YAMLConfig (named "b"));
                    lines (YAMLConfig (named "c"))] _ _ _)))).
  - rewrite Hsort. repeat constructor.
  - vm_compute. reflexivity.
Defined.

Lemma getObject_found_or_notfound_witness :
  canonical
  /\ NewSpec (YAMLConfig svc1) = Ok svc1
  /\ objects empty !! "svc1" = None
  /\ (exists out spec',
        bodyOf (serve (serve empty (POST_objects (Ok (YAMLConfig svc1)))).1
                      (GET_object "svc1")).2
        = Some [Bytes out]
        /\ NewSpec out = Ok spec'
        /\ Name spec' = Name svc1
        /\ Kind spec' = Kind svc1
        /\ YAMLConfig spec' = YAMLConfig svc1)
  /\ statusOf (serve empty (GET_object "svc1")).2 = Some 404.
Proof.
  assert (NewSpec (YAMLConfig svc1) = Ok svc1) as Hspec
    by (vm_compute; reflexivity).
  assert (objects empty !! "svc1" = None) as Hfree by reflexivity.
  destruct (getObject_found_or_notfound empty "svc1") as (Hnf & _ & Hrt).
  split; [exact Demo_canonical|]. split; [exact Hspec|].
  split; [exact Hfree|]. split.
  - exact (Hrt (YAMLConfig svc1) svc1 Demo_canonical Hspec eq_refl Hfree).
  - now apply Hnf.
Defined.

Lemma getStatusObject_no_second_check_witness :
  is_Some (objects running !! "svc1")
  /\ objects (serve running (DELETE_object "svc1")).1 !! "svc1" = None
  /\ bodyOf (getStatusObject_at running
               (serve running (DELETE_object "svc1")).1
               (requestContext (GET_status_object "svc1")))
     = bodyOf (getStatusObject running
                 (requestContext (GET_status_object "svc1")))
  /\ statusOf (getStatusObject (serve running (DELETE_object "svc1")).1
                 (requestContext (GET_status_object "svc1")))
     = Some 404
  /\ yaml_Marshal (VStatus (statusObjects running !! "svc1"))
     = Ok ("state: ok" ++ nl)
  /\ bodyOf (getStatusObject_at running
               (serve running (DELETE_object "svc1")).1
               (requestContext (GET_status_object "svc1")))
     = Some [Bytes ("state: ok" ++ nl)].
Proof.
  assert (is_Some (objects running !! "svc1")) as Hsome
    by (exists svc1; vm_compute; reflexivity).
  assert (yaml_Marshal (VStatus (statusObjects running !! "svc1"))
          = Ok ("state: ok" ++ nl)) as Hbuff by (vm_compute; reflexivity).
  destruct (getStatusObject_no_second_check running running "svc1")
    as (_ & _ & Hrace & _ & Hlast).
  destruct (Hrace Hsome) as (Hgone & Hsame & _ & Hnf).
  split; [exact Hsome|]. split; [exact Hgone|]. split; [now rewrite Hsame|].
  split; [exact Hnf|]. split; [exact Hbuff|].
  exact (proj2 (Hlast _ Hsome Hbuff)).
Defined.

Lemma panic_only_on_serialization_failure_witness :
  is_Some (objects broken !! "svc1")
  /\ yaml_Marshal (VStatus (statusObjects broken !! "svc1"))
     = Err "cannot marshal type"
  /\ (exists v, (serve broken (GET_status_object "svc1")).2 = Panicked v)
  /\ (exists ctx', (serve broken (DELETE_object "svc1")).2 = Returned ctx').
Proof.
  assert (is_Some (objects broken !! "svc1")) as Hsome
    by (exists svc1; vm_compute; reflexivity).
  assert (yaml_Marshal (VStatus (statusObjects broken !! "svc1"))
          = Err "cannot marshal type") as Herr by (vm_compute; reflexivity).
  destruct (panic_only_on_serialization_failure broken (DELETE_object "svc1"))
    as (_ & _ & Hst & _ & Hmut & _).
  split; [exact Hsome|]. split; [exact Herr|]. split.
  - exact (Hst "svc1" _ Hsome Herr).
  - now apply Hmut.
Defined.

End Runs.

(** * More of object.go *)

(** ** What the handlers that write leave alone *)

Section Frames.

Context `{Collaborators}.

Local Open Scope string_scope.

(** X1: [readObjectSpec] succeeds exactly when the body was read, parses,
    and the name in the path is empty or is the name of the parsed spec.
    A body that cannot be read gives the error "read body failed: ..."; a
    body that does not parse gives the error of the parser as it is,
    whatever the name in the path. *)
Theorem readObjectSpec_Ok_iff (ctx : Context) (spec : Spec) :
  (readObjectSpec ctx = Ok spec
   <-> exists body,
         RequestBody ctx = Ok body
         /\ NewSpec body = Ok spec
         /\ (Params_Get ctx "name" = ""
             \/ Params_Get ctx "name" = Name spec))
  /\ (forall e,
        RequestBody ctx = Err e ->
        readObjectSpec ctx = Err ("read body failed: " ++ e))
  /\ (forall body e,
        RequestBody ctx = Ok body -> NewSpec body = Err e ->
        readObjectSpec ctx = Err e).
Proof.
  unfold readObjectSpec. split; [|split].
  - destruct (RequestBody ctx) as [body|e]; simpl.
    + destruct (NewSpec body) as [sp|e] eqn:Hsp; simpl.
      * destruct (decide (Params_Get ctx "name" = "")) as [He|He].
        { rewrite (bool_decide_eq_false_2 (_ <> ""))
            by (intros Hne; now apply Hne).
          simpl. split.
          - intros Hok. injection Hok as ->. exists body.
            split; [reflexivity|]. split; [assumption|tauto].
          - intros (b & Hb & Hs & _). injection Hb as <-. congruence. }
        rewrite (bool_decide_eq_true_2 _ He). simpl.
        destruct (decide (Params_Get ctx "name" = Name sp)) as [Hn|Hn].
        { rewrite bool_decide_eq_false_2 by (intros Hne; now apply Hne).
          split.
          - intros Hok. injection Hok as ->. exists body.
            split; [reflexivity|]. split; [assumption|tauto].
          - intros (b & Hb & Hs & _). injection Hb as <-. congruence. }
        rewrite (bool_decide_eq_true_2 _ Hn). split; [discriminate|].
        intros (b & Hb & Hs & Hor). injection Hb as <-.
        rewrite Hsp in Hs. injection Hs as <-. tauto.
      * split; [discriminate|].
        intros (b & Hb & Hs & _). injection Hb as <-. congruence.
    + split; [discriminate|]. intros (b & Hb & _). discriminate.
  - now intros e ->.
  - now intros body e -> ->.
Qed.

(** X2: create never touches an entry that is there: every stored spec
    is stored as before, and an entry of the server after the call is an
    entry of the server before it, or the parsed spec under its own name,
    which was free. *)
Theorem createObject_keeps_entries (s : Server) (ctx : Context) :
  (forall name spec,
     objects s !! name = Some spec ->
     objects (createObject s ctx).1 !! name = Some spec)
  /\ (forall name spec,
        objects (createObject s ctx).1 !! name = Some spec ->
        objects s !! name = Some spec
        \/ (readObjectSpec ctx = Ok spec
            /\ Name spec = name
            /\ objects s !! name = None)).
Proof.
  unfold createObject, _getObject.
  destruct (readObjectSpec ctx) as [sp|e]; [|simpl; tauto].
  destruct (objects s !! Name sp) as [existed|] eqn:Hget; [simpl; tauto|].
  simpl. split; intros name spec.
  - intros Hin. rewrite lookup_insert_ne; [exact Hin|]. congruence.
  - rewrite lookup_insert. case_decide as Hname; [|tauto].
    intros Hin. injection Hin as <-. subst name. tauto.
Qed.

(** X3: update never adds or removes a name and never changes the kind
    under a name: the names of the server are the same after the call, and
    the spec under each name is the one before, or the parsed spec, of the
    same kind and stored under its own name. *)
Theorem updateObject_keeps_names_and_kinds (s : Server) (ctx : Context) :
  dom (objects (updateObject s ctx).1) = dom (objects s)
  /\ (forall name spec,
        objects s !! name = Some spec ->
        exists spec',
          objects (updateObject s ctx).1 !! name = Some spec'
          /\ Kind spec' = Kind spec
          /\ (spec' = spec
              \/ (readObjectSpec ctx = Ok spec' /\ Name spec' = name))).
Proof.
  assert (forall o : Outcome,
            dom (objects (s, o).1) = dom (objects s)
            /\ (forall name spec,
                  objects s !! name = Some spec ->
                  exists spec',
                    objects (s, o).1 !! name = Some spec'
                    /\ Kind spec' = Kind spec
                    /\ (spec' = spec
                        \/ (readObjectSpec ctx = Ok spec'
                            /\ Name spec' = name)))) as Hsame.
  { intros o. split; [reflexivity|]. intros name spec Hin.
    exists spec. repeat split; [exact Hin|now left]. }
  unfold updateObject, _getObject.
  destruct (readObjectSpec ctx) as [sp|e] eqn:Hread; [|apply Hsame].
  destruct (objects s !! Name sp) as [existed|] eqn:Hget; [|apply Hsame].
  destruct (decide (Kind existed = Kind sp)) as [Hk|Hk].
  2:{ rewrite (bool_decide_eq_true_2 _ Hk). apply Hsame. }
  rewrite bool_decide_eq_false_2 by (intros Hne; now apply Hne).
  simpl. split.
  - apply dom_insert_lookup_L. now exists existed.
  - intros name spec Hin. rewrite lookup_insert.
    case_decide as Hname.
    + subst name. rewrite Hget in Hin. injection Hin as <-.
      exists sp. repeat split; [now symmetry|now right].
    + exists spec. repeat split; [exact Hin|now left].
Qed.

(** X4: after delete, accepted or not, the name in the path has no entry
    and every other name has the entry it had. *)
Theorem deleteObject_clears_name (s : Server) (ctx : Context) :
  objects (deleteObject s ctx).1 = delete (Params_Get ctx "name") (objects s)
  /\ objects (deleteObject s ctx).1 !! Params_Get ctx "name" = None
  /\ (forall name,
        name <> Params_Get ctx "name" ->
        objects (deleteObject s ctx).1 !! name = objects s !! name).
Proof.
  assert (objects (deleteObject s ctx).1
          = delete (Params_Get ctx "name") (objects s)) as ->.
  { unfold deleteObject, _getObject.
    destruct (objects s !! Params_Get ctx "name") eqn:Hget; simpl;
      [reflexivity|].
    symmetry. now apply delete_id. }
  split; [reflexivity|]. split; [apply lookup_delete_eq|].
  intros name Hne. apply lookup_delete_ne. congruence.
Qed.

End Frames.

(** ** The life of a name over a run *)

Section Lifetimes.

Context `{Collaborators}.

Local Open Scope string_scope.

Lemma serve_keeps_kind (s : Server) (r : Request) (name : string) (spec : Spec) :
  r <> DELETE_object name ->
  objects s !! name = Some spec ->
  exists spec',
    objects (serve s r).1 !! name = Some spec' /\ Kind spec' = Kind spec.
Proof.
  intros Hr Hin.
  destruct r as [|body| |n|n body|n| |n]; unfold serve; cbn [fst];
    try (exists spec; now split).
  - unfold createObject, _getObject.
    destruct (readObjectSpec _) as [sp|e]; [|exists spec; now split].
    destruct (objects s !! Name sp) eqn:Hget; [exists spec; now split|].
    simpl. exists spec. split; [|reflexivity].
    rewrite lookup_insert_ne; [exact Hin|congruence].
  - unfold updateObject, _getObject.
    destruct (readObjectSpec _) as [sp|e]; [|exists spec; now split].
    destruct (objects s !! Name sp) as [existed|] eqn:Hget;
      [|exists spec; now split].
    case_bool_decide as Hkind; [exists spec; now split|].
    simpl. rewrite lookup_insert. case_decide as Hname.
    + subst name. rewrite Hget in Hin. injection Hin as <-.
      exists sp. split; [reflexivity|].
      destruct (decide (Kind existed = Kind sp)); [now symmetry|contradiction].
    + exists spec. now split.
  - unfold deleteObject, _getObject.
    rewrite (Params_Get_name (DELETE_object n) n eq_refl).
    destruct (objects s !! n); [|exists spec; now split].
    simpl. exists spec. split; [|reflexivity].
    rewrite lookup_delete_ne; [exact Hin|congruence].
Qed.

Lemma serve_creates_only_by_POST (s : Server) (r : Request) (name : string) :
  (forall body, r <> POST_objects body) ->
  objects s !! name = None ->
  objects (serve s r).1 !! name = None.
Proof.
  intros Hr Hout.
  destruct r as [|body| |n|n body|n| |n]; unfold serve; cbn [fst];
    try exact Hout.
  - now destruct (Hr body).
  - unfold updateObject, _getObject.
    destruct (readObjectSpec _) as [sp|e]; [|exact Hout].
    destruct (objects s !! Name sp) as [existed|] eqn:Hget; [|exact Hout].
    case_bool_decide; [exact Hout|].
    simpl. rewrite lookup_insert_ne; [exact Hout|congruence].
  - unfold deleteObject, _getObject.
    rewrite (Params_Get_name (DELETE_object n) n eq_refl).
    destruct (objects s !! n) eqn:Hn; [|exact Hout].
    simpl. rewrite lookup_delete. now case_decide.
Qed.

(** X5: the kind under a name is fixed as long as the name is not
    deleted: over a run with no DELETE of the name, a name that has an
    entry at the start has one at the end, with a spec of the same
    kind. *)
Theorem kind_fixed_until_deleted
    (s : Server) (rs : list Request) (name : string) (spec : Spec) :
  Forall (fun r => r <> DELETE_object name) rs ->
  objects s !! name = Some spec ->
  exists spec',
    objects (serveAll s rs).1 !! name = Some spec' /\ Kind spec' = Kind spec.
Proof.
  intros Hrs. revert s spec.
  induction Hrs as [|r rs Hr _ IH]; intros s spec Hin; [simpl; eauto|].
  simpl. destruct (serve_keeps_kind s r name spec Hr Hin)
    as (spec1 & Hin1 & Hk1).
  destruct (serve s r) as [s1 o]. cbn [fst] in Hin1.
  destruct (IH s1 spec1 Hin1) as (spec' & Hin' & Hk').
  destruct (serveAll s1 rs) as [s2 os]. cbn [fst] in *.
  exists spec'. split; [exact Hin'|congruence].
Qed.

(** X6: a name gets an entry by a POST only: over a run with no POST, a
    name with no entry at the start has none at the end; an update or a
    delete never makes one. *)
Theorem name_created_only_by_POST
    (s : Server) (rs : list Request) (name : string) :
  Forall (fun r => forall body, r <> POST_objects body) rs ->
  objects s !! name = None ->
  objects (serveAll s rs).1 !! name = None.
Proof.
  intros Hrs. revert s.
  induction Hrs as [|r rs Hr _ IH]; intros s Hout; [exact Hout|].
  simpl. pose proof (serve_creates_only_by_POST s r name Hr Hout) as Hout1.
  destruct (serve s r) as [s1 o]. cbn [fst] in Hout1.
  specialize (IH s1 Hout1).
  now destruct (serveAll s1 rs) as [s2 os].
Qed.

Lemma readObjectSpec_path_name (ctx : Context) (spec : Spec) :
  readObjectSpec ctx = Ok spec ->
  Params_Get ctx "name" = "" \/ Params_Get ctx "name" = Name spec.
Proof.
  unfold readObjectSpec.
  destruct (RequestBody ctx) as [body|e]; [|discriminate]. simpl.
  destruct (NewSpec body) as [sp|e]; [|discriminate]. simpl.
  destruct (decide (Params_Get ctx "name" = "")) as [He|He]; [now left|].
  destruct (decide (Params_Get ctx "name" = Name sp)) as [Hn|Hn].
  - rewrite (bool_decide_eq_false_2 (_ <> Name sp))
      by (intros Hne; now apply Hne).
    rewrite andb_false_r. intros Hok. injection Hok as <-. now right.
  - now rewrite !bool_decide_eq_true_2.
Qed.

(** X7: a name in the path that is not empty is the only name an update
    or a create can write: whatever the body says, every other name has
    after the call the entry it had before.  The check of the name in
    [readObjectSpec] stands before the registry is touched. *)
Theorem path_name_is_the_only_name_written
    (s : Server) (ctx : Context) (other : string) :
  Params_Get ctx "name" <> "" ->
  other <> Params_Get ctx "name" ->
  objects (updateObject s ctx).1 !! other = objects s !! other
  /\ objects (createObject s ctx).1 !! other = objects s !! other.
Proof.
  intros Hne Hother. unfold updateObject, createObject, _getObject.
  destruct (readObjectSpec ctx) as [spec|e] eqn:Hread; [|now split].
  apply readObjectSpec_path_name in Hread as [He|Hname]; [contradiction|].
  destruct (objects s !! Name spec) as [existed|]; split;
    try reflexivity.
  - case_bool_decide; [reflexivity|]. simpl.
    apply lookup_insert_ne. congruence.
  - simpl. apply lookup_insert_ne. congruence.
Qed.

(** X8: the status codes each route can answer.  A create answers 201,
    400 or 409; an update 200, 400 or 404; a delete and a get 200 or 404;
    the status of one object 200 or 404, or the handler panics; the three
    listings answer 200, or the handler panics. *)
Theorem status_codes_by_route (s : Server) (r : Request) :
  match r with
  | POST_objects _ =>
    statusOf (serve s r).2 ∈ [Some iris.StatusCreated;
                              Some iris.StatusBadRequest;
                              Some iris.StatusConflict]
  | PUT_object _ _ =>
    statusOf (serve s r).2 ∈ [Some iris.StatusOK;
                              Some iris.StatusBadRequest;
                              Some iris.StatusNotFound]
  | DELETE_object _ | GET_object _ =>
    statusOf (serve s r).2 ∈ [Some iris.StatusOK; Some iris.StatusNotFound]
  | GET_status_object _ =>
    statusOf (serve s r).2 ∈ [Some iris.StatusOK; Some iris.StatusNotFound;
                              None]
  | GET_objects | GET_status_objects | GET_object_kinds =>
    statusOf (serve s r).2 ∈ [Some iris.StatusOK; None]
  end.
Proof.
  destruct r as [|body| |n|n body|n| |n]; unfold serve; cbn [snd].
  - unfold listObjectKinds. destruct (yaml_Marshal _); simpl; set_solver.
  - unfold createObject. destruct (readObjectSpec _); [|simpl; set_solver].
    destruct (_getObject _ _); simpl; set_solver.
  - unfold listObjects, listObjects_of.
    destruct (specList_Marshal _); simpl; set_solver.
  - unfold getObject. destruct (_getObject _ _); simpl; set_solver.
  - unfold updateObject. destruct (readObjectSpec _); [|simpl; set_solver].
    destruct (_getObject _ _); [|simpl; set_solver].
    case_bool_decide; simpl; set_solver.
  - unfold deleteObject. destruct (_getObject _ _); simpl; set_solver.
  - unfold listStatusObjects. destruct (yaml_Marshal _); simpl; set_solver.
  - unfold getStatusObject, getStatusObject_at.
    destruct (_getObject _ _); [|simpl; set_solver].
    destruct (yaml_Marshal _); simpl; set_solver.
Qed.

End Lifetimes.

(** ** The methods of [specList] *)

Local Open Scope nat_scope.

(** X9: [Less] is a strict order on the indices of a slice: no index is
    less than itself, it is transitive, never holds both ways, and of two
    indices in range whose specs have different names one is less than
    the other. *)
Theorem specList_Less_strict_order (s : list Spec) (i j k : nat) :
  specList_Less s i i = false
  /\ (specList_Less s i j = true -> specList_Less s j k = true ->
      specList_Less s i k = true)
  /\ (specList_Less s i j = true -> specList_Less s j i = false)
  /\ (forall a b,
        s !! i = Some a -> s !! j = Some b -> Name a <> Name b ->
        specList_Less s i j = true \/ specList_Less s j i = true).
Proof.
  unfold specList_Less. split; [|split; [|split]].
  - destruct (s !! i); [apply string_ltb_irrefl|reflexivity].
  - destruct (s !! i) as [a|], (s !! j) as [b|], (s !! k) as [c|];
      try discriminate.
    apply string_ltb_trans.
  - destruct (s !! i) as [a|], (s !! j) as [b|]; try discriminate.
    intros Hab. apply string_ltb_false. now left.
  - intros a b -> -> Hne.
    destruct (String.ltb (Name b) (Name a)) eqn:Hba; [now right|].
    apply string_ltb_false in Hba as [Hab|Hab]; [now left|contradiction].
Qed.

(** X10: [Swap] with both indices in range puts at each of the two
    indices what was at the other, leaves every other index and the
    length alone, rearranges the slice, and done twice gives the slice
    back. *)
Theorem specList_Swap_exchanges (s : list Spec) (i j : nat) :
  i < length s -> j < length s ->
  specList_Swap s i j !! i = s !! j
  /\ specList_Swap s i j !! j = s !! i
  /\ (forall k, k <> i -> k <> j -> specList_Swap s i j !! k = s !! k)
  /\ specList_Len (specList_Swap s i j) = specList_Len s
  /\ specList_Swap s i j ≡ₚ s
  /\ specList_Swap (specList_Swap s i j) i j = s.
Proof.
  intros Hi Hj.
  assert (forall t : list Spec, i < length t -> j < length t ->
            specList_Swap t i j !! i = t !! j
            /\ specList_Swap t i j !! j = t !! i
            /\ (forall k, k <> i -> k <> j -> specList_Swap t i j !! k = t !! k)
            /\ length (specList_Swap t i j) = length t) as Hex.
  { intros t Hit Hjt. unfold specList_Swap.
    destruct (lookup_lt_is_Some_2 t i Hit) as [a Ha].
    destruct (lookup_lt_is_Some_2 t j Hjt) as [b Hb].
    rewrite Ha, Hb. repeat split.
    - now rewrite list_lookup_insert_eq by (now rewrite length_insert).
    - destruct (decide (i = j)) as [->|Hne].
      + rewrite list_lookup_insert_eq by (now rewrite length_insert).
        congruence.
      + rewrite list_lookup_insert_ne by exact Hne.
        now rewrite list_lookup_insert_eq.
    - intros k Hki Hkj. now rewrite !list_lookup_insert_ne by congruence.
    - now rewrite !length_insert. }
  destruct (Hex s Hi Hj) as (Hsi & Hsj & Hsk & Hlen).
  repeat split; try assumption.
  - apply specList_Swap_perm.
  - destruct (Hex (specList_Swap s i j)) as (Hti & Htj & Htk & _);
      try (now rewrite Hlen).
    apply list_eq. intros k.
    destruct (decide (k = i)) as [->|Hki]; [now rewrite Hti, Hsj|].
    destruct (decide (k = j)) as [->|Hkj]; [now rewrite Htj, Hsi|].
    now rewrite Htk, Hsk.
Qed.

Lemma Less_ordered_sorted (l : list Spec) :
  (forall i j, i < j -> j < length l -> specList_Less l i j = true) ->
  StronglySorted name_lt l.
Proof.
  induction l as [|x l IH]; intros Hless; constructor.
  - apply IH. intros i j Hij Hj.
    apply (Hless (S i) (S j)); simpl; lia.
  - apply Forall_forall. intros b Hb.
    apply list_elem_of_lookup_1 in Hb as [k Hk].
    pose proof (lookup_lt_Some _ _ _ Hk) as Hlen.
    specialize (Hless 0 (S k)). unfold specList_Less in Hless.
    simpl in Hless. rewrite Hk in Hless. apply Hless; lia.
Qed.

(** X11: [Less] leaves the sort no choice.  When a rearrangement of a
    slice has every index [Less] than every later one, which needs the
    names of the slice pairwise distinct, it is the only such
    rearrangement, and it is the slice that the sort of the listing
    yields: the listing is the same however the sort goes about it and in
    whatever order the specs came. *)
Theorem Less_order_is_unique (data sorted : list Spec) :
  sorted ≡ₚ data ->
  (forall i j,
     i < j -> j < length sorted -> specList_Less sorted i j = true) ->
  NoDup (Name <$> data)
  /\ sort_Sort data = sorted
  /\ (forall sorted',
        sorted' ≡ₚ data ->
        (forall i j,
           i < j -> j < length sorted' -> specList_Less sorted' i j = true) ->
        sorted' = sorted).
Proof.
  intros Hperm Hless.
  pose proof (Less_ordered_sorted sorted Hless) as Hsorted.
  split; [|split].
  - rewrite <- Hperm. now apply sorted_lt_NoDup.
  - now apply sort_Sort_unique.
  - intros sorted' Hperm' Hless'.
    apply sorted_by_name_unique; [|exact Hsorted|now rewrite Hperm, Hperm'].
    now apply Less_ordered_sorted.
Qed.

Local Close Scope nat_scope.

Section Marshal.

Context `{Collaborators}.

Local Open Scope string_scope.

Lemma specList_Marshal_loop_Err
    (pre : list Spec) (spec : Spec) (post : list Spec)
    (acc : list YamlMap) (e : error) :
  Forall (fun sp => exists m, yaml_Unmarshal (YAMLConfig sp) = Ok m) pre ->
  yaml_Unmarshal (YAMLConfig spec) = Err e ->
  specList_Marshal_loop (pre ++ spec :: post)%list acc
  = Err ("unmarshal " ++ YAMLConfig spec ++ " to yaml failed: " ++ e).
Proof.
  intros Hpre He. revert acc.
  induction Hpre as [|sp pre [m Hm] _ IH]; intros acc; simpl.
  - now rewrite He.
  - rewrite Hm. apply IH.
Qed.

(** X12: [Marshal] succeeds exactly when the form of every spec
    unmarshals and the slice of the results, in the order of the specs,
    marshals; its result is then that serialization.  For no spec at all
    it is the serialization of the empty slice. *)
Theorem specList_Marshal_Ok_iff (l : list Spec) (buff : string) :
  (specList_Marshal l = Ok buff
   <-> exists ms,
         Forall2 (fun spec m => yaml_Unmarshal (YAMLConfig spec) = Ok m) l ms
         /\ yaml_Marshal (VSpecs ms) = Ok buff)
  /\ (specList_Marshal [] = Ok buff <-> yaml_Marshal (VSpecs []) = Ok buff).
Proof.
  assert (forall b, match yaml_Marshal (VSpecs []) with
                    | Ok buff0 => Ok buff0
                    | Err err =>
                      Err ("marshal " ++ fmt_GoSyntax (VSpecs [])
                             ++ " to yaml failed: " ++ err)
                    end = Ok b
                    <-> yaml_Marshal (VSpecs []) = Ok b) as Hnil.
  { intros b. destruct (yaml_Marshal (VSpecs [])); split; congruence. }
  split; [|apply Hnil].
  unfold specList_Marshal. split.
  - destruct (specList_Marshal_loop l []) as [ms|e] eqn:Hloop; simpl;
      [|discriminate].
    apply specList_Marshal_loop_order in Hloop as (ms' & -> & Hall).
    destruct (yaml_Marshal (VSpecs ([] ++ ms'))) as [b|e] eqn:Hm;
      [|discriminate].
    intros Hok. injection Hok as <-. now exists ms'.
  - intros (ms & Hall & Hm).
    rewrite (specList_Marshal_loop_Ok l [] ms Hall). simpl. now rewrite Hm.
Qed.

(** X13: [Marshal] stops at the first spec whose form does not
    unmarshal: its error names that form and carries the error of the
    parser, whatever the specs after it are, and nothing is marshalled. *)
Theorem specList_Marshal_first_error
    (pre : list Spec) (spec : Spec) (post : list Spec) (e : error) :
  Forall (fun sp => exists m, yaml_Unmarshal (YAMLConfig sp) = Ok m) pre ->
  yaml_Unmarshal (YAMLConfig spec) = Err e ->
  specList_Marshal (pre ++ spec :: post)%list
  = Err ("unmarshal " ++ YAMLConfig spec ++ " to yaml failed: " ++ e).
Proof.
  intros Hpre He. unfold specList_Marshal.
  now rewrite (specList_Marshal_loop_Err pre spec post [] e Hpre He).
Qed.

End Marshal.

(** ** One request after another *)

Section Compositions.

Context `{Collaborators}.

Local Open Scope string_scope.

Lemma POST_objects_read (body : string) :
  readObjectSpec (requestContext (POST_objects (Ok body))) = NewSpec body.
Proof.
  unfold readObjectSpec. simpl. destruct (NewSpec body) as [spec|e]; simpl;
    reflexivity.
Qed.

Lemma PUT_object_read (name body : string) (spec : Spec) :
  NewSpec body = Ok spec -> Name spec = name ->
  readObjectSpec (requestContext (PUT_object name (Ok body))) = Ok spec.
Proof.
  intros Hspec Hname. unfold readObjectSpec.
  rewrite (Params_Get_name (PUT_object name (Ok body)) name eq_refl).
  cbn [requestContext newContext RequestBody]. rewrite Hspec. cbn [bind].
  rewrite (bool_decide_eq_false_2 (name <> Name spec))
    by (intros Hne; now apply Hne).
  now rewrite andb_false_r.
Qed.

Lemma PUT_object_accepted
    (s : Server) (name body : string) (spec old : Spec) :
  NewSpec body = Ok spec -> Name spec = name ->
  objects s !! name = Some old -> Kind old = Kind spec ->
  serve s (PUT_object name (Ok body))
  = ({| objects := <[name := spec]> (objects s);
        configVersion := configVersion s + 1;
        statusObjects := statusObjects s |},
     Returned (ctx_Header ConfigVersionKey
                 (fmt.Sprintf_d (configVersion s + 1))
                 (requestContext (PUT_object name (Ok body))))).
Proof.
  intros Hspec Hname Hold Hkind. unfold serve, updateObject, _getObject.
  rewrite (PUT_object_read name body spec Hspec Hname).
  rewrite Hname, Hold.
  rewrite bool_decide_eq_false_2 by (intros Hne; now apply Hne).
  unfold upgradeConfigVersion, _plusOneVersion, _putObject. simpl.
  now rewrite Hname.
Qed.

Lemma POST_objects_accepted (s : Server) (body : string) (spec : Spec) :
  NewSpec body = Ok spec -> objects s !! Name spec = None ->
  serve s (POST_objects (Ok body))
  = ({| objects := <[Name spec := spec]> (objects s);
        configVersion := configVersion s + 1;
        statusObjects := statusObjects s |},
     Returned (ctx_Header "Location" (ObjectPrefix ++ "/" ++ Name spec)
                 (ctx_StatusCode iris.StatusCreated
                    (ctx_Header ConfigVersionKey
                       (fmt.Sprintf_d (configVersion s + 1))
                       (requestContext (POST_objects (Ok body))))))).
Proof.
  intros Hspec Hfree. unfold serve, createObject, _getObject.
  now rewrite POST_objects_read, Hspec, Hfree.
Qed.

(** X14: a get after an accepted update returns the new form: with the
    name present, the body parsed to a spec of that name and of the kind
    stored, the update answers 200 and a get of the name on the server
    after it answers 200 with the form of the new spec. *)
Theorem update_then_get
    (s : Server) (name body : string) (spec old : Spec) :
  NewSpec body = Ok spec ->
  Name spec = name ->
  objects s !! name = Some old ->
  Kind old = Kind spec ->
  let updated := serve s (PUT_object name (Ok body)) in
  statusOf updated.2 = Some iris.StatusOK
  /\ statusOf (serve updated.1 (GET_object name)).2 = Some iris.StatusOK
  /\ bodyOf (serve updated.1 (GET_object name)).2
     = Some [Bytes (YAMLConfig spec)].
Proof.
  intros Hspec Hname Hold Hkind updated. subst updated.
  rewrite (PUT_object_accepted s name body spec old Hspec Hname Hold Hkind).
  unfold serve, getObject, _getObject. cbn [fst snd].
  rewrite (Params_Get_name (GET_object name) name eq_refl).
  simpl. rewrite lookup_insert_eq. now repeat split.
Qed.

(** X15: a create of a free name followed by a delete of that name gives
    the objects back as they were, with the version two higher; the create
    answers 201 and the delete 200. *)
Theorem create_then_delete_restores (s : Server) (body : string) (spec : Spec) :
  NewSpec body = Ok spec ->
  objects s !! Name spec = None ->
  let created := serve s (POST_objects (Ok body)) in
  let deleted := serve created.1 (DELETE_object (Name spec)) in
  statusOf created.2 = Some iris.StatusCreated
  /\ statusOf deleted.2 = Some iris.StatusOK
  /\ objects deleted.1 = objects s
  /\ configVersion deleted.1 = (configVersion s + 2)%Z
  /\ statusObjects deleted.1 = statusObjects s.
Proof.
  intros Hspec Hfree created deleted. subst deleted created.
  rewrite (POST_objects_accepted s body spec Hspec Hfree).
  unfold serve, deleteObject, _getObject. cbn [fst snd].
  rewrite (Params_Get_name (DELETE_object (Name spec)) (Name spec) eq_refl).
  simpl. rewrite lookup_insert_eq. simpl.
  repeat split.
  - now apply delete_insert_id.
  - lia.
Qed.

(** X17: which responses say they are YAML.  The get, the listing and the
    two status responses carry the content type text/vnd.yaml exactly when
    they answer 200; the listing of the kinds, the responses of create,
    update and delete, and every error response carry no content type. *)
Theorem content_type_by_route (s : Server) (r : Request) :
  ConfigVersionKey <> "Content-Type" ->
  headerOf "Content-Type" (serve s r).2
  = match r with
    | GET_objects | GET_object _ | GET_status_objects | GET_status_object _ =>
      if bool_decide (statusOf (serve s r).2 = Some iris.StatusOK)
      then Some "text/vnd.yaml" else None
    | GET_object_kinds | POST_objects _ | PUT_object _ _ | DELETE_object _ =>
      None
    end.
Proof.
  intros Hkey.
  destruct r as [|body| |n|n body|n| |n]; unfold serve; cbn [snd].
  - unfold listObjectKinds. now destruct (yaml_Marshal _).
  - unfold createObject. destruct (readObjectSpec _); [|reflexivity].
    destruct (_getObject _ _); [reflexivity|]. simpl.
    rewrite lookup_insert_ne by discriminate.
    now rewrite lookup_insert_ne by exact Hkey.
  - unfold listObjects, listObjects_of.
    destruct (specList_Marshal _); [|reflexivity].
    simpl. now rewrite lookup_insert_eq.
  - unfold getObject. destruct (_getObject _ _); [|reflexivity].
    simpl. now rewrite lookup_insert_eq.
  - unfold updateObject. destruct (readObjectSpec _); [|reflexivity].
    destruct (_getObject _ _); [|reflexivity].
    case_bool_decide; [reflexivity|]. simpl.
    now rewrite lookup_insert_ne by exact Hkey.
  - unfold deleteObject. destruct (_getObject _ _); [|reflexivity].
    simpl. now rewrite lookup_insert_ne by exact Hkey.
  - unfold listStatusObjects. destruct (yaml_Marshal _); [|reflexivity].
    simpl. now rewrite lookup_insert_eq.
  - unfold getStatusObject, getStatusObject_at.
    destruct (_getObject _ _); [|reflexivity].
    destruct (yaml_Marshal _); [|reflexivity].
    simpl. now rewrite lookup_insert_eq.
Qed.

End Compositions.

(** ** More concrete runs *)

Section MoreRuns.

Import Demo.

Local Open Scope string_scope.

Lemma kind_fixed_until_deleted_witness :
  Forall (fun r => r <> DELETE_object "svc1")
         [GET_objects;
          PUT_object "svc1" (Ok (body "svc1" "Pipeline" "port: 8080"));
          PUT_object "svc1" (Ok (body "svc1" "Other" ""));
          DELETE_object "svc2"]
  /\ objects running !! "svc1" = Some svc1
  /\ exists spec',
       objects (serveAll running
                  [GET_objects;
                   PUT_object "svc1" (Ok (body "svc1" "Pipeline" "port: 8080"));
                   PUT_object "svc1" (Ok (body "svc1" "Other" ""));
                   DELETE_object "svc2"]).1 !! "svc1" = Some spec'
       /\ Kind spec' = Kind svc1.
Proof.
  assert (Forall (fun r => r <> DELETE_object "svc1")
            [GET_objects;
             PUT_object "svc1" (Ok (body "svc1" "Pipeline" "port: 8080"));
             PUT_object "svc1" (Ok (body "svc1" "Other" ""));
             DELETE_object "svc2"]) as Hrs
    by (repeat constructor; discriminate).
  assert (objects running !! "svc1" = Some svc1) as Hin
    by (vm_compute; reflexivity).
  split; [exact Hrs|]. split; [exact Hin|].
  exact (kind_fixed_until_deleted running _ "svc1" svc1 Hrs Hin).
Defined.

Lemma name_created_only_by_POST_witness :
  Forall (fun r => forall b, r <> POST_objects b)
         [PUT_object "svc1" (Ok (YAMLConfig svc1)); DELETE_object "svc1";
          GET_objects]
  /\ objects empty !! "svc1" = None
  /\ objects (serveAll empty
                [PUT_object "svc1" (Ok (YAMLConfig svc1));
                 DELETE_object "svc1"; GET_objects]).1 !! "svc1" = None.
Proof.
  assert (Forall (fun r => forall b, r <> POST_objects b)
            [PUT_object "svc1" (Ok (YAMLConfig svc1)); DELETE_object "svc1";
             GET_objects]) as Hrs
    by (repeat constructor; discriminate).
  assert (objects empty !! "svc1" = None) as Hout by reflexivity.
  split; [exact Hrs|]. split; [exact Hout|].
  exact (name_created_only_by_POST empty _ "svc1" Hrs Hout).
Defined.

Lemma path_name_is_the_only_name_written_witness :
  Params_Get (requestContext
                (PUT_object "svc1" (Ok (body "svc2" "Other" "port: 1"))))
             "name" <> ""
  /\ "svc2" <> Params_Get
                 (requestContext
                    (PUT_object "svc1" (Ok (body "svc2" "Other" "port: 1"))))
                 "name"
  /\ objects
       (updateObject
          (serve running (POST_objects (Ok (YAMLConfig (named "svc2"))))).1
          (requestContext
             (PUT_object "svc1" (Ok (body "svc2" "Other" "port: 1"))))).1
     !! "svc2"
     = Some (named "svc2").
Proof.
  assert (Params_Get
            (requestContext
               (PUT_object "svc1" (Ok (body "svc2" "Other" "port: 1"))))
            "name" <> "") as Hne by (vm_compute; discriminate).
  assert ("svc2" <> Params_Get
                      (requestContext
                         (PUT_object "svc1" (Ok (body "svc2" "Other" "port: 1"))))
                      "name") as Hother by (vm_compute; discriminate).
  split; [exact Hne|]. split; [exact Hother|].
  rewrite (proj1 (path_name_is_the_only_name_written
                    (serve running
                       (POST_objects (Ok (YAMLConfig (named "svc2"))))).1
                    _ "svc2" Hne Hother)).
  vm_compute. reflexivity.
Defined.

Lemma Less_order_is_unique_witness :
  [named "a"; named "b"; named "c"] ≡ₚ [named "c"; named "a"; named "b"]
  /\ (forall i j,
        (i < j)%nat -> (j < length [named "a"; named "b"; named "c"])%nat ->
        specList_Less [named "a"; named "b"; named "c"] i j = true)
  /\ sort_Sort [named "c"; named "a"; named "b"]
     = [named "a"; named "b"; named "c"].
Proof.
  assert ([named "a"; named "b"; named "c"]
          ≡ₚ [named "c"; named "a"; named "b"]) as Hperm.
  { change [named "c"; named "a"; named "b"]
      with ([named "c"] ++ [named "a"; named "b"])%list.
    change [named "a"; named "b"; named "c"]
      with ([named "a"; named "b"] ++ [named "c"])%list.
    apply Permutation_app_comm. }
  assert (forall i j,
            (i < j)%nat ->
            (j < length [named "a"; named "b"; named "c"])%nat ->
            specList_Less [named "a"; named "b"; named "c"] i j = true)
    as Hless.
  { intros [|[|[|i]]] [|[|[|j]]] Hij Hj; simpl in Hj; try lia; reflexivity. }
  split; [exact Hperm|]. split; [exact Hless|].
  exact (proj1 (proj2 (Less_order_is_unique _ _ Hperm Hless))).
Defined.

Lemma specList_Swap_exchanges_witness :
  (0 < length [named "c"; named "a"; named "b"])%nat
  /\ (2 < length [named "c"; named "a"; named "b"])%nat
  /\ specList_Swap [named "c"; named "a"; named "b"] 0 2 !! 0%nat
     = Some (named "b")
  /\ specList_Swap (specList_Swap [named "c"; named "a"; named "b"] 0 2) 0 2
     = [named "c"; named "a"; named "b"].
Proof.
  assert (0 < length [named "c"; named "a"; named "b"])%nat as H0
    by (simpl; lia).
  assert (2 < length [named "c"; named "a"; named "b"])%nat as H2
    by (simpl; lia).
  destruct (specList_Swap_exchanges [named "c"; named "a"; named "b"] 0 2
              H0 H2) as (Hi & _ & _ & _ & _ & Hinv).
  split; [exact H0|]. split; [exact H2|]. split; [|exact Hinv].
  rewrite Hi. reflexivity.
Defined.

Lemma specList_Marshal_first_error_witness :
  Forall (fun sp => exists m, yaml_Unmarshal (YAMLConfig sp) = Ok m)
         [named "a"]
  /\ yaml_Unmarshal
       (YAMLConfig {| Name := "t"; Kind := "Pipeline";
                      YAMLConfig := String tab "" |})
     = Err "found character that cannot start any token"
  /\ specList_Marshal
       [named "a";
        {| Name := "t"; Kind := "Pipeline"; YAMLConfig := String tab "" |};
        named "b"]
     = Err ("unmarshal " ++ String tab ""
              ++ " to yaml failed: found character that cannot start any token").
Proof.
  assert (Forall (fun sp => exists m, yaml_Unmarshal (YAMLConfig sp) = Ok m)
            [named "a"]) as Hpre
    by (repeat constructor; eexists; vm_compute; reflexivity).
  assert (yaml_Unmarshal
            (YAMLConfig {| Name := "t"; Kind := "Pipeline";
                           YAMLConfig := String tab "" |})
          = Err "found character that cannot start any token") as He
    by (vm_compute; reflexivity).
  split; [exact Hpre|]. split; [exact He|].
  exact (specList_Marshal_first_error [named "a"] _ [named "b"] _ Hpre He).
Defined.

Lemma update_then_get_witness :
  NewSpec (body "svc1" "Pipeline" "port: 8080")
  = Ok {| Name := "svc1"; Kind := "Pipeline";
          YAMLConfig := body "svc1" "Pipeline" "port: 8080" |}
  /\ objects running !! "svc1" = Some svc1
  /\ bodyOf (serve (serve running
                      (PUT_object "svc1"
                         (Ok (body "svc1" "Pipeline" "port: 8080")))).1
               (GET_object "svc1")).2
     = Some [Bytes (body "svc1" "Pipeline" "port: 8080")].
Proof.
  assert (NewSpec (body "svc1" "Pipeline" "port: 8080")
          = Ok {| Name := "svc1"; Kind := "Pipeline";
                  YAMLConfig := body "svc1" "Pipeline" "port: 8080" |})
    as Hspec by (vm_compute; reflexivity).
  assert (objects running !! "svc1" = Some svc1) as Hold
    by (vm_compute; reflexivity).
  split; [exact Hspec|]. split; [exact Hold|].
  exact (proj2 (proj2 (update_then_get running "svc1" _ _ svc1
                         Hspec eq_refl Hold eq_refl))).
Defined.

Lemma create_then_delete_restores_witness :
  NewSpec (YAMLConfig svc1) = Ok svc1
  /\ objects running !! Name (named "svc2") = None
  /\ objects (serve (serve running (POST_objects (Ok (YAMLConfig (named "svc2"))))).1
                (DELETE_object "svc2")).1
     = objects running
  /\ configVersion
       (serve (serve running (POST_objects (Ok (YAMLConfig (named "svc2"))))).1
          (DELETE_object "svc2")).1 = 3%Z.
Proof.
  assert (NewSpec (YAMLConfig svc1) = Ok svc1) as Hspec1
    by (vm_compute; reflexivity).
  assert (NewSpec (YAMLConfig (named "svc2")) = Ok (named "svc2")) as Hspec
    by (vm_compute; reflexivity).
  assert (objects running !! Name (named "svc2") = None) as Hfree
    by (vm_compute; reflexivity).
  destruct (create_then_delete_restores running _ (named "svc2") Hspec Hfree)
    as (_ & _ & Ho & Hv & _).
  split; [exact Hspec1|]. split; [exact Hfree|]. split; [exact Ho|exact Hv].
Defined.

Lemma content_type_by_route_witness :
  ConfigVersionKey <> "Content-Type"
  /\ headerOf "Content-Type" (serve running (GET_object "svc1")).2
     = Some "text/vnd.yaml"
  /\ headerOf "Content-Type" (serve running (GET_object "svc2")).2 = None
  /\ headerOf "Content-Type" (serve running GET_object_kinds).2 = None.
Proof.
  assert (ConfigVersionKey <> "Content-Type") as Hkey by discriminate.
  split; [exact Hkey|]. split; [|split].
  - rewrite (content_type_by_route running (GET_object "svc1") Hkey).
    vm_compute. reflexivity.
  - rewrite (content_type_by_route running (GET_object "svc2") Hkey).
    vm_compute. reflexivity.
  - exact (content_type_by_route running GET_object_kinds Hkey).
Defined.

End MoreRuns.

(** ** The table of routes *)

Section RouteTable.

Context `{Collaborators}.

Local Open Scope string_scope.

(** X18: the table registers no method and path twice, and every
    request has exactly one entry for its method and path pattern, whose
    handler is the one that serves it. *)
Theorem objAPIs_one_handler_per_route (s : Server) (r : Request) :
  NoDup ((fun e => (APIMethod e, APIPath e)) <$> objAPIs)
  /\ exists e,
       entriesFor (routeOf r) = [e]
       /\ serve s r = APIHandler e s (requestContext r).
Proof.
  split.
  - apply (bool_decide_unpack _). vm_compute. reflexivity.
  - destruct r; eexists; (split; [reflexivity|reflexivity]).
Qed.

End RouteTable.
